(** * Analysis sessions: repository routes and JSON card renderer

    A shallow embedding of the analysis routes module (session identity
    parsing, safe artifact reads, session summary and detail, the list and
    detail routes) and of the [JsonCardView] component (primitive, array
    and object rendering), followed by the properties established about
    them. *)

From Stdlib Require Import Bool Arith NArith ZArith List Ascii String Lia.
From Stdlib Require Import Sorting.Sorted Sorting.Permutation.
From Stdlib Require DecimalString.
Import ListNotations.

Local Open Scope string_scope.
Local Open Scope list_scope.

Set Warnings "-register-all".

(** ** JavaScript values *)

(** The values that flow through both modules: what [JSON.parse] can
    produce, plus [undefined].  Numbers are the integer-valued ones;
    strings are sequences of code units below 256, one [ascii] each;
    an object is the list of its own properties in [Object.entries]
    order. *)
Inductive value : Type :=
| VUndefined
| VNull
| VBool (b : bool)
| VNumber (n : Z)
| VString (s : string)
| VArray (items : list value)
| VObject (props : list (string * value)).

Module Js.

(** [ToBoolean]: what [!x], [x || y] and [x ? a : b] test. *)
Definition truthy (v : value) : bool :=
  match v with
  | VUndefined | VNull => false
  | VBool b => b
  | VNumber n => negb (Z.eqb n 0)
  | VString s => negb (String.eqb s "")
  | VArray _ | VObject _ => true
  end.

(** [a || b] *)
Definition or_else (a b : value) : value := if truthy a then a else b.

Fixpoint lookup (key : string) (props : list (string * value)) : option value :=
  match props with
  | [] => None
  | (k, v) :: rest => if String.eqb k key then Some v else lookup key rest
  end.

(** [v?.key] for a key that no prototype defines. *)
Definition opt_get (v : value) (key : string) : value :=
  match v with
  | VObject props =>
      match lookup key props with Some x => x | None => VUndefined end
  | _ => VUndefined
  end.

(** [s.replace(/c/g, d)] for single characters [c] and [d]. *)
Fixpoint replace_all (c d : ascii) (s : string) : string :=
  match s with
  | EmptyString => EmptyString
  | String a rest =>
      String (if Ascii.eqb a c then d else a) (replace_all c d rest)
  end.

(** [String(n)] for an integer [n] of less than 22 digits. *)
Definition string_of_Z (n : Z) : string :=
  DecimalString.NilZero.string_of_int (Z.to_int n).

Fixpoint join_with (sep : string) (parts : list string) : string :=
  match parts with
  | [] => ""
  | [p] => p
  | p :: rest => p ++ sep ++ join_with sep rest
  end.

(** [String(v)].  An array prints its elements joined by commas, with
    [null] and [undefined] elements printed as nothing. *)
Fixpoint String_ (v : value) : string :=
  match v with
  | VUndefined => "undefined"
  | VNull => "null"
  | VBool b => if b then "true" else "false"
  | VNumber n => string_of_Z n
  | VString s => s
  | VArray items =>
      join_with ","
        (map (fun x => match x with
                       | VUndefined | VNull => ""
                       | _ => String_ x
                       end) items)
  | VObject _ => "[object Object]"
  end.

End Js.

(** ** Exceptions and rejected promises *)

(** The outcome of evaluating an expression or awaiting a promise: a value,
    or a thrown error (a rejection, once awaited) with its message. *)
Inductive completion (A : Type) : Type :=
| Normal (a : A)
| Throw (message : string).

Arguments Normal {A} a.
Arguments Throw {A} message.

Definition bind {A B} (c : completion A) (f : A -> completion B) : completion B :=
  match c with
  | Normal a => f a
  | Throw m => Throw m
  end.

(** [try { body } catch { handler }] *)
Definition try_catch {A} (body : completion A) (handler : string -> completion A)
  : completion A :=
  match body with
  | Normal a => Normal a
  | Throw m => handler m
  end.

Declare Scope completion_scope.
Delimit Scope completion_scope with completion.
Notation "x <- c ;; k" := (bind c (fun x => k))
  (at level 61, c at next level, right associativity) : completion_scope.
Local Open Scope completion_scope.

(** ** Regular expressions *)

(** The fragment of ECMAScript regular expressions used by the routes
    module, with a backtracking matcher in continuation-passing style.
    The matcher state is the index into the input, the rest of the input
    from that index, and the texts captured so far. *)
Module Regex.

Inductive regex : Type :=
| Bol                      (* ^ *)
| Eol                      (* $ *)
| Chr (c : ascii)          (* a literal character *)
| NotChr (c : ascii)       (* [^c] *)
| Dot                      (* . *)
| Digit                    (* \d *)
| Cat (r1 r2 : regex)
| Plus (r : regex)         (* r+, greedy *)
| Rep (n : nat) (r : regex) (* r{n} *)
| Group (r : regex).       (* ( r ) *)

Fixpoint Lit (s : string) : regex :=
  match s with
  | EmptyString => Rep 0 Dot
  | String c EmptyString => Chr c
  | String c rest => Cat (Chr c) (Lit rest)
  end.

(** Line terminators, which [.] does not match. *)
Definition is_line_terminator (c : ascii) : bool :=
  Ascii.eqb c "010" || Ascii.eqb c "013".

Definition is_digit (c : ascii) : bool :=
  Nat.leb 48 (nat_of_ascii c) && Nat.leb (nat_of_ascii c) 57.

Definition state : Type := (nat * string * list string)%type.
Definition cont : Type := nat -> string -> list string -> option state.

Definition one (p : ascii -> bool) (pos : nat) (s : string)
           (caps : list string) (k : cont) : option state :=
  match s with
  | EmptyString => None
  | String c rest => if p c then k (S pos) rest caps else None
  end.

(** [r+]: one more iteration while the last one consumed input, the
    longest repetition first. *)
Definition plus_loop (step : nat -> string -> list string -> cont -> option state)
           (k : cont) : nat -> nat -> string -> list string -> option state :=
  fix loop (fuel : nat) (pos : nat) (s : string) (caps : list string)
    : option state :=
    match fuel with
    | 0 => None
    | S fuel' =>
        step pos s caps (fun pos' s' caps' =>
          match (if Nat.ltb pos pos' then loop fuel' pos' s' caps' else None) with
          | Some st => Some st
          | None => k pos' s' caps'
          end)
    end.

(** [r{n}] *)
Definition rep_loop (step : nat -> string -> list string -> cont -> option state)
           (k : cont) : nat -> nat -> string -> list string -> option state :=
  fix rep (n : nat) (pos : nat) (s : string) (caps : list string)
    : option state :=
    match n with
    | 0 => k pos s caps
    | S n' => step pos s caps (fun pos' s' caps' => rep n' pos' s' caps')
    end.

Fixpoint run (r : regex) (pos : nat) (s : string) (caps : list string)
         (k : cont) {struct r} : option state :=
  match r with
  | Bol => if Nat.eqb pos 0 then k pos s caps else None
  | Eol => match s with EmptyString => k pos s caps | _ => None end
  | Chr c => one (Ascii.eqb c) pos s caps k
  | NotChr c => one (fun a => negb (Ascii.eqb c a)) pos s caps k
  | Dot => one (fun a => negb (is_line_terminator a)) pos s caps k
  | Digit => one is_digit pos s caps k
  | Cat r1 r2 =>
      run r1 pos s caps (fun pos' s' caps' => run r2 pos' s' caps' k)
  | Plus r1 => plus_loop (run r1) k (S (String.length s)) pos s caps
  | Rep n r1 => rep_loop (run r1) k n pos s caps
  | Group r1 =>
      run r1 pos s caps (fun pos' s' caps' =>
        k pos' s' (caps' ++ [String.substring 0 (pos' - pos) s]))
  end.

Fixpoint drop (n : nat) (s : string) : string :=
  match n, s with
  | S n', String _ rest => drop n' rest
  | _, _ => s
  end.

(** Try the start indices [start], [start + 1], ... in turn. *)
Fixpoint exec_from (r : regex) (input : string) (start : nat) (tries : nat)
  : option (list string) :=
  match run r start (drop start input) [] (fun pos s caps => Some (pos, s, caps)) with
  | Some (stop, _, caps) =>
      Some (String.substring start (stop - start) input :: caps)
  | None =>
      match tries with
      | 0 => None
      | S tries' => exec_from r input (S start) tries'
      end
  end.

(** [input.match(r)] for a regular expression without the [g] flag: the
    matched text followed by the captured groups, or [None] for [null]. *)
Definition str_match (input : string) (r : regex) : option (list string) :=
  exec_from r input 0 (String.length input).

(** Closed forms of the matcher on the session pattern. *)

(** What [.+] tries, longest first, before a continuation [k]. *)
Fixpoint greedy (k : cont) (s : string) (pos : nat) (caps : list string)
  : option state :=
  match s with
  | EmptyString => None
  | String c rest =>
      if is_line_terminator c then None
      else match greedy k rest (S pos) caps with
           | Some st => Some st
           | None => k (S pos) rest caps
           end
  end.

Definition final : cont := fun pos s caps => Some (pos, s, caps).

(** [-(\d{4}-\d{2}-\d{2})$] *)
Definition tail_pattern : regex :=
  Cat (Chr "-")
    (Cat (Group (Cat (Rep 4 Digit) (Cat (Chr "-")
            (Cat (Rep 2 Digit) (Cat (Chr "-") (Rep 2 Digit))))))
         Eol).

(** The continuation of [(.+)] in the session pattern: close the group
    opened at index [p0] of [s0], then match the tail. *)
Definition after_slug (s0 : string) (p0 : nat) : cont :=
  fun pos s caps =>
    run tail_pattern pos s (caps ++ [String.substring 0 (pos - p0) s0]) final.

End Regex.

(** ** Session identity *)

Record SessionIdentity : Type := { slug : string; date : string }.

(** [/^ANL-(.+)-(\d{4}-\d{2}-\d{2})$/] *)
Definition session_pattern : Regex.regex :=
  let d := Regex.Digit in
  let date_token :=
    Regex.Cat (Regex.Rep 4 d) (Regex.Cat (Regex.Chr "-")
      (Regex.Cat (Regex.Rep 2 d) (Regex.Cat (Regex.Chr "-") (Regex.Rep 2 d)))) in
  Regex.Cat Regex.Bol
    (Regex.Cat (Regex.Lit "ANL-")
       (Regex.Cat (Regex.Group (Regex.Plus Regex.Dot))
          (Regex.Cat (Regex.Chr "-")
             (Regex.Cat (Regex.Group date_token) Regex.Eol)))).

Definition parseSessionId (folderName : string) : option SessionIdentity :=
  match Regex.str_match folderName session_pattern with
  | None => None
  | Some m => Some {| slug := nth 1 m ""; date := nth 2 m "" |}
  end.

(** ** The file system and the host functions *)

(** What a path names: a file, with what [readFile(path, 'utf-8')] settles
    to (the text, or a rejection such as EACCES), or a directory, with what
    [readdir(path)] settles to.  A listing may name children that the file
    system does not resolve (a dangling link, a folder removed meanwhile). *)
Inductive fsnode : Type :=
| File (content : completion string)
| Directory (listing : completion (list string)).

Definition filesystem : Type := string -> option fsnode.

Record Stats : Type := { isDirectory : bool }.

Definition existsSync (fs : filesystem) (path : string) : bool :=
  match fs path with Some _ => true | None => false end.

Definition readFile (fs : filesystem) (path : string) : completion string :=
  match fs path with
  | Some (File content) => content
  | Some (Directory _) => Throw "EISDIR: illegal operation on a directory, read"
  | None => Throw "ENOENT: no such file or directory"
  end.

Definition stat (fs : filesystem) (path : string) : completion Stats :=
  match fs path with
  | Some (File _) => Normal {| isDirectory := false |}
  | Some (Directory _) => Normal {| isDirectory := true |}
  | None => Throw "ENOENT: no such file or directory"
  end.

Definition readdir (fs : filesystem) (path : string) : completion (list string) :=
  match fs path with
  | Some (Directory listing) => listing
  | Some (File _) => Throw "ENOTDIR: not a directory"
  | None => Throw "ENOENT: no such file or directory"
  end.

(** The functions the routes module takes from its host: [path.join],
    [JSON.parse], [decodeURIComponent] and the project's [resolvePath]. *)
Class Host : Type := {
  join : string -> string -> string;
  JSON_parse : string -> completion value;
  decodeURIComponent : string -> completion string;
  resolvePath : string -> completion string
}.

(** [a.localeCompare(b)], on the date tokens it is applied to: digits and
    hyphens at the same places, which every collation orders as the code
    units do. *)
Definition localeCompare (a b : string) : Z :=
  match String.compare a b with
  | Lt => (-1)%Z
  | Eq => 0%Z
  | Gt => 1%Z
  end.

(** [Array.prototype.sort(comparefn)]: a stable sort. *)
Section ArraySort.
Variable A : Type.
Variable comparefn : A -> A -> Z.

Fixpoint insert (x : A) (sorted : list A) : list A :=
  match sorted with
  | [] => [x]
  | y :: rest =>
      if (comparefn x y <=? 0)%Z then x :: sorted else y :: insert x rest
  end.

Definition Array_sort (l : list A) : list A := fold_right insert [] l.
End ArraySort.

Arguments insert {A} comparefn x sorted.
Arguments Array_sort {A} comparefn l.

(** ** Session records *)

Inductive SessionStatus : Type := in_progress | completed.

Module Summary.
Record t : Type := {
  id : string;
  name : string;
  topic : value;
  createdAt : string;
  status : SessionStatus;
  hasConclusions : bool
}.
End Summary.

Module Detail.
Record t : Type := {
  id : string;
  name : string;
  topic : value;
  createdAt : string;
  status : SessionStatus;
  discussion : option string;
  conclusions : value;
  explorations : value;
  perspectives : value
}.
End Detail.

Inductive payload : Type :=
| ListPayload (data : list Summary.t) (total : nat)
| DetailPayload (data : Detail.t)
| ErrorPayload (error : string).

Record response : Type := {
  statusCode : nat;
  contentType : string;
  body : payload
}.

Record RouteContext : Type := {
  pathname : string;
  method : string;
  projectPathParam : option string;
  initialPath : string
}.

(** ** The routes module *)

Section Routes.
Context {host : Host}.

(** Read JSON file safely *)
Definition readJsonFile (fs : filesystem) (filePath : string) : completion value :=
  try_catch
    (if negb (existsSync fs filePath) then Normal VNull
     else content <- readFile fs filePath ;;
          JSON_parse content)
    (fun _ => Normal VNull).

(** Read text file safely *)
Definition readTextFile (fs : filesystem) (filePath : string)
  : completion (option string) :=
  try_catch
    (if negb (existsSync fs filePath) then Normal None
     else content <- readFile fs filePath ;;
          Normal (Some content))
    (fun _ => Normal None).

(** [(conclusions?.topic as string) || parsed.slug.replace(/-/g, ' ')] *)
Definition topic_of (conclusions : value) (parsed : SessionIdentity) : value :=
  Js.or_else (Js.opt_get conclusions "topic")
             (VString (Js.replace_all "-" " " (slug parsed))).

(** Get analysis session summary from folder *)
Definition getSessionSummary (fs : filesystem) (analysisDir folderName : string)
  : completion (option Summary.t) :=
  match parseSessionId folderName with
  | None => Normal None
  | Some parsed =>
      let sessionPath := join analysisDir folderName in
      folderStat <- stat fs sessionPath ;;
      if negb (isDirectory folderStat) then Normal None
      else
        let conclusionsPath := join sessionPath "conclusions.json" in
        let hasConclusions := existsSync fs conclusionsPath in
        conclusions <- (if hasConclusions then readJsonFile fs conclusionsPath
                        else Normal VNull) ;;
        let topic := topic_of conclusions parsed in
        Normal (Some {|
          Summary.id := folderName;
          Summary.name := folderName;
          Summary.topic := topic;
          Summary.createdAt := date parsed;
          Summary.status := if hasConclusions then completed else in_progress;
          Summary.hasConclusions := hasConclusions
        |})
  end.

(** Get detailed session content *)
Definition getSessionDetail (fs : filesystem) (analysisDir sessionId : string)
  : completion (option Detail.t) :=
  match parseSessionId sessionId with
  | None => Normal None
  | Some parsed =>
      let sessionPath := join analysisDir sessionId in
      if negb (existsSync fs sessionPath) then Normal None
      else
        discussion <- readTextFile fs (join sessionPath "discussion.md") ;;
        conclusions <- readJsonFile fs (join sessionPath "conclusions.json") ;;
        explorations <- readJsonFile fs (join sessionPath "explorations.json") ;;
        perspectives <- readJsonFile fs (join sessionPath "perspectives.json") ;;
        let topic := topic_of conclusions parsed in
        Normal (Some {|
          Detail.id := sessionId;
          Detail.name := sessionId;
          Detail.topic := topic;
          Detail.createdAt := date parsed;
          Detail.status := if Js.truthy conclusions then completed else in_progress;
          Detail.discussion := discussion;
          Detail.conclusions := conclusions;
          Detail.explorations := explorations;
          Detail.perspectives := perspectives
        |})
  end.

Definition json_response (code : nat) (b : payload) : response :=
  {| statusCode := code; contentType := "application/json"; body := b |}.

(** [ctx.url.searchParams.get('projectPath') || initialPath] *)
Definition projectPath_of (ctx : RouteContext) : string :=
  match projectPathParam ctx with
  | Some p => if String.eqb p "" then initialPath ctx else p
  | None => initialPath ctx
  end.

Definition analysisDir_of (ctx : RouteContext) : completion string :=
  resolvedPath <- resolvePath (projectPath_of ctx) ;;
  Normal (join (join resolvedPath ".workflow") ".analysis").

(** The loop over the enumerated folders, pushing each summary. *)
Fixpoint collect_sessions (fs : filesystem) (analysisDir : string)
         (folders : list string) (sessions : list Summary.t)
  : completion (list Summary.t) :=
  match folders with
  | [] => Normal sessions
  | folder :: rest =>
      summary <- getSessionSummary fs analysisDir folder ;;
      collect_sessions fs analysisDir rest
        (match summary with
         | Some s => sessions ++ [s]
         | None => sessions
         end)
  end.

(** Sort by date descending *)
Definition by_date_descending (a b : Summary.t) : Z :=
  localeCompare (Summary.createdAt b) (Summary.createdAt a).

Definition internal_error (message : string) : completion response :=
  Normal (json_response 500 (ErrorPayload message)).

(** GET /api/analysis - List all analysis sessions *)
Definition list_route (ctx : RouteContext) (fs : filesystem) : completion response :=
  try_catch
    (analysisDir <- analysisDir_of ctx ;;
     if negb (existsSync fs analysisDir)
     then Normal (json_response 200 (ListPayload [] 0))
     else
       folders <- readdir fs analysisDir ;;
       collected <- collect_sessions fs analysisDir folders [] ;;
       let sessions := Array_sort by_date_descending collected in
       Normal (json_response 200 (ListPayload sessions (List.length sessions))))
    internal_error.

(** GET /api/analysis/:id - Get session detail *)
Definition detail_route (ctx : RouteContext) (fs : filesystem) (encodedId : string)
  : completion response :=
  try_catch
    (sessionId <- decodeURIComponent encodedId ;;
     analysisDir <- analysisDir_of ctx ;;
     detail <- getSessionDetail fs analysisDir sessionId ;;
     match detail with
     | None => Normal (json_response 404 (ErrorPayload "Session not found"))
     | Some d => Normal (json_response 200 (DetailPayload d))
     end)
    internal_error.

(** [/^\/api\/analysis\/([^/]+)$/] *)
Definition detail_pattern : Regex.regex :=
  Regex.Cat Regex.Bol
    (Regex.Cat (Regex.Lit "/api/analysis/")
       (Regex.Cat (Regex.Group (Regex.Plus (Regex.NotChr "/"))) Regex.Eol)).

(** Handle analysis routes: [Some] the response written when the route
    was handled (the function returns [true]), [None] when it was not
    (it returns [false]). *)
Definition handleAnalysisRoutes (ctx : RouteContext) (fs : filesystem)
  : completion (option response) :=
  if String.eqb (pathname ctx) "/api/analysis" && String.eqb (method ctx) "GET"
  then r <- list_route ctx fs ;; Normal (Some r)
  else
    match Regex.str_match (pathname ctx) detail_pattern with
    | Some detailMatch =>
        if String.eqb (method ctx) "GET"
        then r <- detail_route ctx fs (nth 1 detailMatch "") ;; Normal (Some r)
        else Normal None
    | None => Normal None
    end.

End Routes.

(** ** The JSON card view *)

(** What a component renders: text, a number rendered as a child, or an
    element with its properties and children.  Imported components
    ([Badge], [Card], the icons) are elements named after them; React
    keys, which are not rendered, are left out. *)
Inductive attr : Type :=
| AStr (s : string)
| ASetExpanded (next : bool).   (* [() => setExpanded(next)] *)

Inductive node : Type :=
| Text (s : string)
| Num (n : Z)
| Elem (tag : string) (props : list (string * attr)) (children : list node).

(** [cn] of the project's utilities ([@/lib/utils]), which makes one
    class list of its arguments.  Its source is not among the files of
    the components, which therefore take it as a parameter.  An argument
    that is [false] or [undefined] is [None]. *)
Class Utils : Type := {
  cn : list (option string) -> string
}.

Module Card.

Definition className (c : string) : string * attr := ("className", AStr c).

(** [typeof v === 'object'] *)
Definition typeof_object (v : value) : bool :=
  match v with
  | VNull | VArray _ | VObject _ => true
  | _ => false
  end.

Definition isObject (v : value) : bool :=
  match v with VObject _ => true | _ => false end.

Definition isArray (v : value) : bool :=
  match v with VArray _ => true | _ => false end.

Definition is_upper (c : ascii) : bool :=
  Nat.leb 65 (nat_of_ascii c) && Nat.leb (nat_of_ascii c) 90.

Definition is_lower (c : ascii) : bool :=
  Nat.leb 97 (nat_of_ascii c) && Nat.leb (nat_of_ascii c) 122.

(** [toUpperCase] on one character, for the ASCII letters. *)
Definition toUpperCase (c : ascii) : ascii :=
  if is_lower c then ascii_of_nat (nat_of_ascii c - 32) else c.

Definition is_space (c : ascii) : bool :=
  let n := nat_of_ascii c in
  (Nat.leb 9 n && Nat.leb n 13) || Nat.eqb n 32 || Nat.eqb n 160.

(** [s.replace(/([A-Z])/g, ' $1')] *)
Fixpoint space_capitals (s : string) : string :=
  match s with
  | EmptyString => EmptyString
  | String c rest =>
      if is_upper c then String " " (String c (space_capitals rest))
      else String c (space_capitals rest)
  end.

(** [s.replace(/^./, (str) => str.toUpperCase())] *)
Definition capitalize_first (s : string) : string :=
  match s with
  | EmptyString => EmptyString
  | String c rest =>
      if Regex.is_line_terminator c then s else String (toUpperCase c) rest
  end.

Fixpoint trim_start (s : string) : string :=
  match s with
  | String c rest => if is_space c then trim_start rest else s
  | EmptyString => EmptyString
  end.

Fixpoint trim_end (s : string) : string :=
  match s with
  | EmptyString => EmptyString
  | String c rest =>
      match trim_end rest with
      | EmptyString => if is_space c then EmptyString else String c EmptyString
      | kept => String c kept
      end
  end.

Definition trim (s : string) : string := trim_end (trim_start s).

Definition formatLabel (key : string) : string :=
  trim (capitalize_first (space_capitals (Js.replace_all "_" " " key))).

Definition startsWith (s p : string) : bool := String.prefix p s.

Definition PrimitiveValue (v : value) : node :=
  match v with
  | VNull | VUndefined =>
      Elem "span" [className "text-muted-foreground italic"] [Text "null"]
  | VBool b =>
      Elem "Badge" [("variant", AStr (if b then "default" else "secondary"))]
           [Text (if b then "true" else "false")]
  | VNumber n =>
      Elem "span" [className "text-blue-600 dark:text-blue-400 font-mono"] [Num n]
  | VString s =>
      if startsWith s "http://" || startsWith s "https://" then
        Elem "a" [("href", AStr s); ("target", AStr "_blank");
                  ("rel", AStr "noopener noreferrer");
                  className "text-blue-600 dark:text-blue-400 hover:underline break-all"]
             [Text s]
      else if Nat.ltb 100 (String.length s) then
        Elem "div" [className "text-sm text-foreground bg-muted/50 p-2 rounded whitespace-pre-wrap break-words"]
             [Text s]
      else
        Elem "span" [className "text-foreground"] [Text s]
  | _ => Elem "span" [] [Text (Js.String_ v)]
  end.

(** [items.map((item, index) => f index item)] *)
Definition mapi {A B : Type} (f : nat -> A -> B) : nat -> list A -> list B :=
  fix go (index : nat) (items : list A) : list B :=
    match items with
    | [] => []
    | item :: rest => f index item :: go (S index) rest
    end.

(** The three mutually recursive components, each written over the
    component it calls; the knot is tied in [CardItem] below. *)
Definition ObjectView_over (CardItem : string -> value -> nat -> node)
           (data : list (string * value)) (depth : nat) : node :=
  let entries := data in
  if Nat.eqb (List.length entries) 0 then
    Elem "div" [className "text-muted-foreground italic text-sm"] [Text "Empty object"]
  else
    Elem "div" [className "space-y-3"]
         (map (fun '(key, v) => CardItem key v depth) entries).

(** [expanded] is the component's state, [true] when first rendered. *)
Definition ArrayView_over (ObjectView : list (string * value) -> nat -> node)
           (expanded : bool) (items : list value) : node :=
  if Nat.eqb (List.length items) 0 then
    Elem "div" [className "text-muted-foreground italic text-sm"] [Text "Empty list"]
  else
    let allPrimitives :=
      forallb (fun item => negb (typeof_object item)
                           || match item with VNull => true | _ => false end) items in
    if allPrimitives then
      Elem "div" [className "flex flex-wrap gap-1.5"]
           (mapi (fun index item =>
                    Elem "Badge" [("variant", AStr "outline"); className "font-normal"]
                         [Text (Js.String_ item)]) 0 items)
    else
      Elem "div" [className "space-y-2"]
           (Elem "button"
                 [("onClick", ASetExpanded (negb expanded));
                  className "flex items-center gap-1 text-sm text-muted-foreground hover:text-foreground"]
                 [Elem (if expanded then "ChevronDown" else "ChevronRight")
                       [className "w-4 h-4"] [];
                  Num (Z.of_nat (List.length items)); Text " items"]
            :: (if expanded then
                  [Elem "div" [className "space-y-2 pl-4 border-l-2 border-border"]
                        (mapi (fun index item =>
                                 Elem "Card" [className "p-3"]
                                      [Elem "div" [className "text-xs text-muted-foreground mb-2"]
                                            [Text "#"; Num (Z.of_nat (index + 1))];
                                       match item with
                                       | VObject data => ObjectView data 0
                                       | _ => PrimitiveValue item
                                       end]) 0 items)]
                else [])).

Section Components.
Context {utils : Utils}.

Fixpoint CardItem (label : string) (v : value) (depth : nat) {struct v} : node :=
  let formattedLabel := formatLabel label in
  match v with
  | VObject data =>
      Elem "div" [className "space-y-2"]
           [Elem "div" [className "font-medium text-sm text-foreground"] [Text formattedLabel];
            Elem "div" [className (cn [Some "pl-3 border-l-2 border-border";
                                       if Nat.ltb 1 depth then Some "ml-2" else None])]
                 [ObjectView_over CardItem data (depth + 1)]]
  | VArray items =>
      Elem "div" [className "space-y-2"]
           [Elem "div" [className "font-medium text-sm text-foreground"] [Text formattedLabel];
            ArrayView_over (ObjectView_over CardItem) true items]
  | _ =>
      Elem "div" [className "flex items-start gap-2"]
           [Elem "div" [className "font-medium text-sm text-muted-foreground min-w-[120px] shrink-0"]
                 [Text formattedLabel];
            Elem "div" [className "flex-1 text-sm"] [PrimitiveValue v]]
  end.

Definition ObjectView (data : list (string * value)) (depth : nat) : node :=
  ObjectView_over CardItem data depth.

Definition ArrayView (expanded : bool) (items : list value) : node :=
  ArrayView_over ObjectView expanded items.

(** [data as Record<string, unknown>], as [Object.entries] sees it: a
    string has its characters under their indices, a number or a
    boolean has no entry. *)
Definition as_record (data : value) : list (string * value) :=
  match data with
  | VObject props => props
  | VArray items => mapi (fun index item => (Js.string_of_Z (Z.of_nat index), item)) 0 items
  | VString s =>
      mapi (fun index c => (Js.string_of_Z (Z.of_nat index), VString (String c EmptyString)))
           0 (list_ascii_of_string s)
  | _ => []
  end.

Definition JsonCardView (data : value) (className_ : option string) : node :=
  if negb (Js.truthy data) then
    Elem "div" [className "text-muted-foreground italic text-sm"] [Text "No data available"]
  else
    match data with
    | VArray items =>
        Elem "div" [className (cn [Some "space-y-3"; className_])] [ArrayView true items]
    | _ =>
        Elem "div" [className (cn [Some "space-y-4"; className_])]
             [ObjectView (as_record data) 0]
    end.

End Components.

End Card.

(** ** A host and file systems to run the module on *)

Module Sample.

(** [JSON.parse] on the documents of the examples: no escape sequence in
    a string, integer numbers, distinct keys that are not array indices.
    Anything else is reported as a syntax error. *)
Definition dquote : ascii := "034"%char.

Fixpoint skip_ws (s : string) : string :=
  match s with
  | String c rest =>
      if Ascii.eqb c " " || Ascii.eqb c "009" || Ascii.eqb c "010" || Ascii.eqb c "013"
      then skip_ws rest else s
  | EmptyString => EmptyString
  end.

Fixpoint expect (word : string) (s : string) : option string :=
  match word, s with
  | EmptyString, _ => Some s
  | String w word', String c rest => if Ascii.eqb w c then expect word' rest else None
  | _, _ => None
  end.

Fixpoint string_body (s : string) : option (string * string) :=
  match s with
  | EmptyString => None
  | String c rest =>
      if Ascii.eqb c dquote then Some (EmptyString, rest)
      else if Ascii.eqb c "\" || Nat.ltb (nat_of_ascii c) 32 then None
      else match string_body rest with
           | Some (text, rest') => Some (String c text, rest')
           | None => None
           end
  end.

Fixpoint digits (acc : Z) (s : string) : Z * string :=
  match s with
  | String c rest =>
      if Regex.is_digit c
      then digits (10 * acc + Z.of_nat (nat_of_ascii c - 48)) rest
      else (acc, s)
  | EmptyString => (acc, s)
  end.

Definition natural (s : string) : option (Z * string) :=
  match s with
  | String c rest =>
      if Regex.is_digit c then
        let '(n, rest') := digits 0 s in
        match rest, rest' with
        | String d _, _ => if Ascii.eqb c "0" && Regex.is_digit d then None
                           else match rest' with
                                | String e _ =>
                                    if Ascii.eqb e "." || Ascii.eqb e "e" || Ascii.eqb e "E"
                                    then None else Some (n, rest')
                                | EmptyString => Some (n, rest')
                                end
        | EmptyString, _ => Some (n, rest')
        end
      else None
  | EmptyString => None
  end.

Fixpoint parse_value (fuel : nat) (s : string) : option (value * string) :=
  match fuel with
  | 0 => None
  | S fuel' =>
      match skip_ws s with
      | String c rest =>
          if Ascii.eqb c "n" then option_map (pair VNull) (expect "ull" rest)
          else if Ascii.eqb c "t" then option_map (pair (VBool true)) (expect "rue" rest)
          else if Ascii.eqb c "f" then option_map (pair (VBool false)) (expect "alse" rest)
          else if Ascii.eqb c dquote then
            match string_body rest with
            | Some (text, rest') => Some (VString text, rest')
            | None => None
            end
          else if Ascii.eqb c "-" then
            match natural rest with
            | Some (n, rest') => Some (VNumber (- n), rest')
            | None => None
            end
          else if Ascii.eqb c "[" then
            match skip_ws rest with
            | String "]" rest' => Some (VArray [], rest')
            | _ => match parse_elements fuel' rest with
                   | Some (items, rest') => Some (VArray items, rest')
                   | None => None
                   end
            end
          else if Ascii.eqb c "{" then
            match skip_ws rest with
            | String "}" rest' => Some (VObject [], rest')
            | _ => match parse_members fuel' rest with
                   | Some (props, rest') => Some (VObject props, rest')
                   | None => None
                   end
            end
          else
            match natural (String c rest) with
            | Some (n, rest') => Some (VNumber n, rest')
            | None => None
            end
      | EmptyString => None
      end
  end
with parse_elements (fuel : nat) (s : string) : option (list value * string) :=
  match fuel with
  | 0 => None
  | S fuel' =>
      match parse_value fuel' s with
      | Some (v, rest) =>
          match skip_ws rest with
          | String "," rest' =>
              match parse_elements fuel' rest' with
              | Some (vs, rest'') => Some (v :: vs, rest'')
              | None => None
              end
          | String "]" rest' => Some ([v], rest')
          | _ => None
          end
      | None => None
      end
  end
with parse_members (fuel : nat) (s : string) : option (list (string * value) * string) :=
  match fuel with
  | 0 => None
  | S fuel' =>
      match skip_ws s with
      | String c rest =>
          if Ascii.eqb c dquote then
            match string_body rest with
            | Some (key, rest1) =>
                match skip_ws rest1 with
                | String ":" rest2 =>
                    match parse_value fuel' rest2 with
                    | Some (v, rest3) =>
                        match skip_ws rest3 with
                        | String "," rest4 =>
                            match parse_members fuel' rest4 with
                            | Some (more, rest5) => Some ((key, v) :: more, rest5)
                            | None => None
                            end
                        | String "}" rest4 => Some ([(key, v)], rest4)
                        | _ => None
                        end
                    | None => None
                    end
                | _ => None
                end
            | None => None
            end
          else None
      | EmptyString => None
      end
  end.

Definition parse (text : string) : completion value :=
  match parse_value (2 * String.length text + 2) text with
  | Some (v, rest) =>
      match skip_ws rest with
      | EmptyString => Normal v
      | _ => Throw "Unexpected non-whitespace character after JSON"
      end
  | None => Throw "Unexpected token in JSON"
  end.

(** Documents are written with ['] for the double quote. *)
Definition doc (s : string) : string := Js.replace_all "'" dquote s.

Fixpoint has_percent (s : string) : bool :=
  match s with
  | EmptyString => false
  | String c rest => Ascii.eqb c "%" || has_percent rest
  end.

(** [path.join] on segments that need no normalisation,
    [decodeURIComponent] on text without escapes, and a [resolvePath]
    that leaves an absolute path as it is. *)
Definition host : Host := {|
  join := fun a b => (a ++ "/" ++ b)%string;
  JSON_parse := parse;
  decodeURIComponent := fun s =>
    if has_percent s then Throw "URI malformed" else Normal s;
  resolvePath := fun p => Normal p
|}.

Fixpoint tree (entries : list (string * fsnode)) : filesystem :=
  fun path =>
    match entries with
    | [] => None
    | (p, n) :: rest => if String.eqb p path then Some n else tree rest path
    end.

Definition dir (names : list string) : fsnode := Directory (Normal names).
Definition file (text : string) : fsnode := File (Normal text).
Definition unreadable : fsnode := File (Throw "EACCES: permission denied").

Definition request (path : string) : RouteContext :=
  {| pathname := path; method := "GET";
     projectPathParam := Some "/proj"; initialPath := "/home" |}.

End Sample.

(** ** Vocabulary of the statements *)

(** [s] is as long as [classes] and has each character in its class. *)
Fixpoint in_classes (classes : list (ascii -> bool)) (s : string) : bool :=
  match classes, s with
  | [], EmptyString => true
  | p :: classes', String c s' => p c && in_classes classes' s'
  | _, _ => false
  end.

(** A token of exactly [YYYY-MM-DD] digits. *)
Definition date_shaped (d : string) : bool :=
  let digit := Regex.is_digit in
  let hyphen := Ascii.eqb "-" in
  in_classes [digit; digit; digit; digit; hyphen; digit; digit; hyphen; digit; digit] d.

Fixpoint no_line_terminator (s : string) : bool :=
  match s with
  | EmptyString => true
  | String c rest => negb (Regex.is_line_terminator c) && no_line_terminator rest
  end.

(** [s] without its prefix [p], when it has it. *)
Fixpoint strip_prefix (p s : string) : option string :=
  match p, s with
  | EmptyString, _ => Some s
  | String a p', String b s' => if Ascii.eqb a b then strip_prefix p' s' else None
  | String _ _, EmptyString => None
  end.

(** ** Closed forms of the repository operations *)

Section ClosedForms.
Context {host : Host}.

(** What [readJsonFile] settles to, in closed form. *)
Definition json_at (fs : filesystem) (path : string) : value :=
  match readFile fs path with
  | Normal text =>
      match JSON_parse text with
      | Normal v => v
      | Throw _ => VNull
      end
  | Throw _ => VNull
  end.

Definition text_at (fs : filesystem) (path : string) : option string :=
  match readFile fs path with
  | Normal text => Some text
  | Throw _ => None
  end.

Definition conclusionsPath (analysisDir folderName : string) : string :=
  join (join analysisDir folderName) "conclusions.json".

(** The record [getSessionSummary] builds for a session folder. *)
Definition summary_record (fs : filesystem) (analysisDir folderName : string)
           (parsed : SessionIdentity) : Summary.t :=
  let hasConclusions := existsSync fs (conclusionsPath analysisDir folderName) in
  {| Summary.id := folderName;
     Summary.name := folderName;
     Summary.topic := topic_of (json_at fs (conclusionsPath analysisDir folderName)) parsed;
     Summary.createdAt := date parsed;
     Summary.status := if hasConclusions then completed else in_progress;
     Summary.hasConclusions := hasConclusions |}.

(** The record [getSessionDetail] builds. *)
Definition detail_record (fs : filesystem) (analysisDir sessionId : string)
           (parsed : SessionIdentity) : Detail.t :=
  let sessionPath := join analysisDir sessionId in
  let conclusions := json_at fs (join sessionPath "conclusions.json") in
  {| Detail.id := sessionId;
     Detail.name := sessionId;
     Detail.topic := topic_of conclusions parsed;
     Detail.createdAt := date parsed;
     Detail.status := if Js.truthy conclusions then completed else in_progress;
     Detail.discussion := text_at fs (join sessionPath "discussion.md");
     Detail.conclusions := conclusions;
     Detail.explorations := json_at fs (join sessionPath "explorations.json");
     Detail.perspectives := json_at fs (join sessionPath "perspectives.json") |}.

(** The summary a folder contributes to the list, if any. *)
Definition listed (fs : filesystem) (analysisDir folderName : string)
  : option Summary.t :=
  match parseSessionId folderName, fs (join analysisDir folderName) with
  | Some parsed, Some (Directory _) =>
      Some (summary_record fs analysisDir folderName parsed)
  | _, _ => None
  end.

Definition summaries (fs : filesystem) (analysisDir : string)
           (folders : list string) : list Summary.t :=
  flat_map (fun f => match listed fs analysisDir f with
                     | Some s => [s]
                     | None => []
                     end) folders.

Definition list_ok (sessions : list Summary.t) : response :=
  json_response 200 (ListPayload sessions (List.length sessions)).

Definition not_older (a b : Summary.t) : Prop :=
  String.compare (Summary.createdAt b) (Summary.createdAt a) <> Gt.

End ClosedForms.

(** A folder is a session of the list when its name parses and its path is
    a directory. *)
Definition is_session_folder {host : Host} (fs : filesystem)
           (analysisDir folderName : string) : Prop :=
  parseSessionId folderName <> None /\
  stat fs (join analysisDir folderName) = Normal {| isDirectory := true |}.

(** Whether a folder contributes a session created on [d]. *)
Definition session_dated {host : Host} (fs : filesystem) (analysisDir d f : string)
  : bool :=
  match listed fs analysisDir f with
  | Some s => String.eqb (Summary.createdAt s) d
  | None => false
  end.

(** The topic field a conclusions document declares, if any. *)
Definition declared_topic (conclusions : value) : option value :=
  match conclusions with
  | VObject props => Js.lookup "topic" props
  | _ => None
  end.

(** The slug with its hyphens replaced by spaces. *)
Definition slug_topic (parsed : SessionIdentity) : value :=
  VString (Js.replace_all "-" " " (slug parsed)).

(** The topic both operations derive. *)
Definition derived_topic (conclusions : value) (parsed : SessionIdentity) : value :=
  match declared_topic conclusions with
  | Some t => if Js.truthy t then t else slug_topic parsed
  | None => slug_topic parsed
  end.

(** ** Date tokens as calendar numbers *)

(** The number a date token spells out: [2026-02-15] is 20260215. *)
Fixpoint digits_value (acc : nat) (s : string) : nat :=
  match s with
  | EmptyString => acc
  | String c rest =>
      if Regex.is_digit c
      then digits_value (10 * acc + (nat_of_ascii c - 48)) rest
      else digits_value acc rest
  end.

Definition date_number (d : string) : nat := digits_value 0 d.

Fixpoint count_digits (s : string) : nat :=
  match s with
  | EmptyString => 0
  | String c rest => (if Regex.is_digit c then 1 else 0) + count_digits rest
  end.

Definition digit_or_hyphen (p : ascii -> bool) : Prop :=
  p = Regex.is_digit \/ p = Ascii.eqb "-".

Definition chronologically_not_older (a b : Summary.t) : Prop :=
  date_number (Summary.createdAt b) <= date_number (Summary.createdAt a).

(** ** What a rendered node shows *)

Module Rendered.
Import Card.

Definition tag_of (n : node) : string :=
  match n with Elem tag _ _ => tag | _ => EmptyString end.

Definition children_of (n : node) : list node :=
  match n with Elem _ _ children => children | _ => [] end.

Fixpoint lookup_prop (key : string) (props : list (string * attr)) : option attr :=
  match props with
  | [] => None
  | (k, a) :: rest => if String.eqb k key then Some a else lookup_prop key rest
  end.

Definition prop_of (key : string) (n : node) : option attr :=
  match n with Elem _ props _ => lookup_prop key props | _ => None end.

(** The words of a class list. *)
Fixpoint words (s : string) : list string :=
  match s with
  | EmptyString => [EmptyString]
  | String c rest =>
      if Ascii.eqb c " " then EmptyString :: words rest
      else match words rest with
           | w :: ws => String c w :: ws
           | [] => [String c EmptyString]
           end
  end.

Definition has_class (c : string) (n : node) : bool :=
  match prop_of "className" n with
  | Some (AStr classes) => existsb (String.eqb c) (words classes)
  | _ => false
  end.

Fixpoint repeat_char (c : ascii) (n : nat) : string :=
  match n with
  | 0 => EmptyString
  | S n' => String c (repeat_char c n')
  end.

(** [s] starts with [http://] or [https://]. *)
Definition url_prefixed (s : string) : Prop :=
  exists rest, s = ("http://" ++ rest)%string \/ s = ("https://" ++ rest)%string.

(** The explicit marker of an empty value: the italic word [null]. *)
Definition empty_marker (n : node) : Prop :=
  tag_of n = "span" /\ has_class "italic" n = true /\ children_of n = [Text "null"].

(** A badge in one of two states. *)
Definition boolean_badge (b : bool) (n : node) : Prop :=
  tag_of n = "Badge" /\
  prop_of "variant" n = Some (AStr (if b then "default" else "secondary")) /\
  children_of n = [Text (if b then "true" else "false")].

(** The number itself as the only child. *)
Definition verbatim_number (z : Z) (n : node) : Prop :=
  tag_of n = "span" /\ children_of n = [Num z].

Definition link_to (url : string) (n : node) : Prop :=
  tag_of n = "a" /\ prop_of "href" n = Some (AStr url) /\ children_of n = [Text url].

(** A block that keeps white space and line breaks. *)
Definition pre_wrapped_block (s : string) (n : node) : Prop :=
  tag_of n = "div" /\ has_class "whitespace-pre-wrap" n = true /\
  children_of n = [Text s].

Definition inline_text (s : string) (n : node) : Prop :=
  tag_of n = "span" /\ has_class "whitespace-pre-wrap" n = false /\
  children_of n = [Text s].

(** A compact badge showing [text]. *)
Definition compact_badge (text : string) : node :=
  Elem "Badge" [("variant", AStr "outline"); className "font-normal"] [Text text].

Definition primitive (v : value) : bool :=
  match v with
  | VArray _ | VObject _ => false
  | _ => true
  end.

Section Views.
Context {utils : Utils}.

(** How [ArrayView] renders an element of a list that is not all
    primitives. *)
Definition element_view (item : value) : node :=
  match item with
  | VObject data => ObjectView data 0
  | _ => PrimitiveValue item
  end.

Definition indexed_card (index : nat) (item : value) : node :=
  Elem "Card" [className "p-3"]
       [Elem "div" [className "text-xs text-muted-foreground mb-2"]
             [Text "#"; Num (Z.of_nat (index + 1))];
        element_view item].

End Views.

End Rendered.

(** ** File systems of the examples *)

Module Fixture.
Import Sample.

Definition analysisDir : string := "/proj/.workflow/.analysis".

Definition at_ (name : string) : string := (analysisDir ++ "/" ++ name)%string.

Definition list_request : RouteContext := request "/api/analysis".

Definition detail_request (sessionId : string) : RouteContext :=
  request ("/api/analysis/" ++ sessionId)%string.

(** Three sessions, enumerated in the order 2026-01-01, 2026-02-15,
    2025-12-31, and an entry that is not a session. *)
Definition three_dates : filesystem :=
  tree [(analysisDir, dir ["ANL-alpha-2026-01-01"; "notes.txt";
                           "ANL-beta-2026-02-15"; "ANL-gamma-2025-12-31"]);
        (at_ "ANL-alpha-2026-01-01", dir []);
        (at_ "notes.txt", file "scratch");
        (at_ "ANL-beta-2026-02-15", dir []);
        (at_ "ANL-gamma-2025-12-31", dir [])].

(** The sessions of [three_dates], enumerated in another order. *)
Definition three_dates_reordered : filesystem :=
  tree [(analysisDir, dir ["ANL-gamma-2025-12-31"; "ANL-beta-2026-02-15";
                           "notes.txt"; "ANL-alpha-2026-01-01"]);
        (at_ "ANL-alpha-2026-01-01", dir []);
        (at_ "notes.txt", file "scratch");
        (at_ "ANL-beta-2026-02-15", dir []);
        (at_ "ANL-gamma-2025-12-31", dir [])].

(** A session whose conclusions file was cut short while being written,
    next to a session without conclusions. *)
Definition truncated_conclusions : filesystem :=
  tree [(analysisDir, dir ["ANL-alpha-2026-01-01"; "ANL-cache-2026-03-01"]);
        (at_ "ANL-alpha-2026-01-01", dir []);
        (at_ "ANL-cache-2026-03-01", dir ["conclusions.json"]);
        (at_ "ANL-cache-2026-03-01/conclusions.json",
         file (doc "{'topic': 'Cache des"))].

(** A session whose conclusions file cannot be read. *)
Definition unreadable_conclusions : filesystem :=
  tree [(analysisDir, dir ["ANL-cache-2026-03-01"]);
        (at_ "ANL-cache-2026-03-01", dir ["conclusions.json"]);
        (at_ "ANL-cache-2026-03-01/conclusions.json", unreadable)].

(** The listing names a session folder that no longer resolves. *)
Definition dangling_entry : filesystem :=
  tree [(analysisDir, dir ["ANL-alpha-2026-01-01"; "ANL-gone-2026-03-01"]);
        (at_ "ANL-alpha-2026-01-01", dir [])].

(** A regular file named like a session. *)
Definition file_named_like_session : filesystem :=
  tree [(analysisDir, dir ["ANL-notes-2026-03-01"]);
        (at_ "ANL-notes-2026-03-01", file "not a session folder")].

Definition topic_session : string := "ANL-my-cool-topic-2026-03-01".

Definition with_conclusions (text : string) : filesystem :=
  tree [(analysisDir, dir [topic_session]);
        (at_ topic_session, dir ["conclusions.json"]);
        (at_ (topic_session ++ "/conclusions.json"), file text)].

Definition without_conclusions : filesystem :=
  tree [(analysisDir, dir [topic_session]);
        (at_ topic_session, dir [])].

(** The summary of a session folder that has no conclusions file. *)
Definition bare (folder topic created : string) : Summary.t :=
  {| Summary.id := folder; Summary.name := folder;
     Summary.topic := VString topic; Summary.createdAt := created;
     Summary.status := in_progress; Summary.hasConclusions := false |}.

Definition three_dates_listed : list Summary.t :=
  [bare "ANL-beta-2026-02-15" "beta" "2026-02-15";
   bare "ANL-alpha-2026-01-01" "alpha" "2026-01-01";
   bare "ANL-gamma-2025-12-31" "gamma" "2025-12-31"].

Definition same_date_listed : list Summary.t :=
  [bare "ANL-b-2026-01-01" "b" "2026-01-01";
   bare "ANL-a-2026-01-01" "a" "2026-01-01";
   bare "ANL-old-2025-01-01" "old" "2025-01-01"].

(** Two sessions of one date, in the given enumeration order. *)
Definition same_date (first second : string) : filesystem :=
  tree [(analysisDir, dir [first; "ANL-old-2025-01-01"; second]);
        (at_ first, dir []);
        (at_ "ANL-old-2025-01-01", dir []);
        (at_ second, dir [])].

End Fixture.

(** ** Routing and further vocabulary *)

Module Routing.
Import Regex.

(** What [c+] tries, longest first, before a continuation [k], for a
    one-character class [c]. *)
Fixpoint greedy_class (p : ascii -> bool) (k : cont) (s : string) (pos : nat)
         (caps : list string) : option state :=
  match s with
  | EmptyString => None
  | String c rest =>
      if p c then
        match greedy_class p k rest (S pos) caps with
        | Some st => Some st
        | None => k (S pos) rest caps
        end
      else None
  end.

(** The continuation of [([^/]+)] in the detail pattern: close the group
    opened at index [p0] of [s0], then be at the end. *)
Definition at_end (s0 : string) (p0 : nat) : cont :=
  fun pos s caps =>
    run Eol pos s (caps ++ [String.substring 0 (pos - p0) s0]) final.

Fixpoint all_in (p : ascii -> bool) (s : string) : bool :=
  match s with
  | EmptyString => true
  | String c rest => p c && all_in p rest
  end.

(** A path segment: not empty, and without a slash. *)
Definition segment (s : string) : bool :=
  negb (String.eqb s EmptyString) && all_in (fun a => negb (Ascii.eqb "/" a)) s.

(** Where a request goes. *)
Inductive route : Type :=
| ListRoute
| DetailRoute (encodedId : string)
| NotHandled.

Definition route_of (ctx : RouteContext) : route :=
  if negb (String.eqb (method ctx) "GET") then NotHandled
  else if String.eqb (pathname ctx) "/api/analysis" then ListRoute
  else match strip_prefix "/api/analysis/" (pathname ctx) with
       | Some rest => if segment rest then DetailRoute rest else NotHandled
       | None => NotHandled
       end.

(** Whether a directory entry has a session name. *)
Definition session_name (folderName : string) : bool :=
  match parseSessionId folderName with Some _ => true | None => false end.

End Routing.

(** ** The analysis page *)

(** The parts of the analysis page that compute: the search filter over
    the sessions and the tabs of the detail panel.  Sessions are typed as
    the page's [AnalysisSessionSummary]; a detail is the record the detail
    route returns. *)
Module Page.

Record AnalysisSessionSummary : Type := {
  id : string;
  name : string;
  topic : string;
  createdAt : string;
  status : SessionStatus;
  hasConclusions : bool
}.

(** [toLowerCase], for the ASCII letters. *)
Definition lower_char (c : ascii) : ascii :=
  if Card.is_upper c then ascii_of_nat (nat_of_ascii c + 32) else c.

Fixpoint toLowerCase (s : string) : string :=
  match s with
  | EmptyString => EmptyString
  | String c rest => String (lower_char c) (toLowerCase rest)
  end.

(** [s.includes(sub)] *)
Fixpoint includes (s sub : string) : bool :=
  if String.prefix sub s then true
  else match s with
       | EmptyString => false
       | String _ rest => includes rest sub
       end.

(** Filter sessions by search query *)
Definition filteredSessions (sessions : list AnalysisSessionSummary)
           (searchQuery : string) : list AnalysisSessionSummary :=
  filter (fun session =>
            includes (toLowerCase (topic session)) (toLowerCase searchQuery)
            || includes (toLowerCase (id session)) (toLowerCase searchQuery))
         sessions.

Record tab : Type := {
  tab_id : string;
  label : string;
  icon : string;
  content : value
}.

Definition discussion_content (detail : Detail.t) : value :=
  match Detail.discussion detail with
  | Some text => VString text
  | None => VNull
  end.

(** Build available tabs based on content *)
Definition tabs (detail : Detail.t) : list tab :=
  filter (fun t => Js.truthy (content t))
    [ {| tab_id := "discussion"; label := "讨论记录"; icon := "MessageSquare";
         content := discussion_content detail |};
      {| tab_id := "conclusions"; label := "结论"; icon := "CheckCircle";
         content := Detail.conclusions detail |};
      {| tab_id := "explorations"; label := "代码探索"; icon := "Code";
         content := Detail.explorations detail |};
      {| tab_id := "perspectives"; label := "视角分析"; icon := "FileText";
         content := Detail.perspectives detail |} ].

(** [tabs[0]?.id || 'discussion'] *)
Definition defaultTab (detail : Detail.t) : string :=
  match tabs detail with
  | t :: _ => if String.eqb (tab_id t) EmptyString then "discussion" else tab_id t
  | [] => "discussion"
  end.

(** The artifacts in the order of the tabs, each with its content. *)
Definition artifacts (detail : Detail.t) : list (string * value) :=
  [("discussion", discussion_content detail);
   ("conclusions", Detail.conclusions detail);
   ("explorations", Detail.explorations detail);
   ("perspectives", Detail.perspectives detail)].

(** The first artifact with content, if any. *)
Fixpoint first_present (l : list (string * value)) : option string :=
  match l with
  | [] => None
  | (k, v) :: rest => if Js.truthy v then Some k else first_present rest
  end.

End Page.

(** ** Vocabulary for labels *)

Module Label.

Fixpoint has_char (c : ascii) (s : string) : bool :=
  match s with
  | EmptyString => false
  | String a rest => Ascii.eqb a c || has_char c rest
  end.

Definition first_char (s : string) : option ascii :=
  match s with
  | EmptyString => None
  | String c _ => Some c
  end.

Fixpoint last_char (s : string) : option ascii :=
  match s with
  | EmptyString => None
  | String c EmptyString => Some c
  | String _ rest => last_char rest
  end.

Definition is_space_opt (c : option ascii) : bool :=
  match c with
  | Some a => Card.is_space a
  | None => false
  end.

(** Lower-case letters, digits and underscores: the characters of a key
    written in snake case. *)
Definition snake_char (c : ascii) : bool :=
  Card.is_lower c || Regex.is_digit c || Ascii.eqb c "_".

(** A key in snake case: a lower-case letter first, no underscore last. *)
Definition snake_case (key : string) : bool :=
  match key with
  | EmptyString => false
  | String c rest =>
      Card.is_lower c && Routing.all_in snake_char rest
      && negb (match last_char key with
               | Some a => Ascii.eqb a "_"
               | None => false
               end)
  end.

(** Letters and digits: the characters of a key written in camel case. *)
Definition alnum_char (c : ascii) : bool :=
  Card.is_lower c || Card.is_upper c || Regex.is_digit c.

(** [s] without its white space. *)
Fixpoint strip_spaces (s : string) : string :=
  match s with
  | EmptyString => EmptyString
  | String c rest =>
      if Card.is_space c then strip_spaces rest else String c (strip_spaces rest)
  end.

(** The label an entry of an object view or a card item shows. *)
Definition label_of (n : node) : option string :=
  match Rendered.children_of n with
  | Elem "div" _ [Text label] :: _ => Some label
  | _ => None
  end.

End Label.

(** ** Facts about the matcher *)

Module RegexFacts.
Import Regex.

Lemma exec_from_Bol r input start tries :
  0 < start -> exec_from (Cat Bol r) input start tries = None.
Proof.
  revert start; induction tries as [|tries IH]; intros start Hs;
    (destruct start as [|start]; [lia|]); cbn [exec_from run Nat.eqb];
    [reflexivity | apply IH; lia].
Qed.

(** An anchored pattern is tried at index 0 only. *)
Lemma str_match_Bol r input :
  str_match input (Cat Bol r) =
  match run r 0 input [] (fun pos s caps => Some (pos, s, caps)) with
  | Some (stop, _, caps) => Some (String.substring 0 (stop - 0) input :: caps)
  | None => None
  end.
Proof.
  unfold str_match.
  destruct (String.length input) as [|n]; simpl;
    destruct (run r 0 input [] _) as [[[stop rest] caps]|]; auto.
  apply exec_from_Bol; lia.
Qed.

Lemma run_Lit p pos s caps k :
  p <> EmptyString ->
  run (Lit p) pos s caps k =
  match strip_prefix p s with
  | Some rest => k (pos + String.length p) rest caps
  | None => None
  end.
Proof.
  revert pos s; induction p as [|c p IH]; intros pos s Hp; [congruence|].
  destruct p as [|c' p].
  - simpl. destruct s as [|a s]; simpl; auto.
    destruct (Ascii.eqb c a); auto. now rewrite Nat.add_1_r.
  - change (Lit (String c (String c' p))) with (Cat (Chr c) (Lit (String c' p))).
    cbn [run]. unfold one at 1. destruct s as [|a s]; [reflexivity|].
    change (strip_prefix (String c (String c' p)) (String a s))
      with (if Ascii.eqb c a then strip_prefix (String c' p) s else None).
    destruct (Ascii.eqb c a); [|reflexivity].
    rewrite IH by congruence.
    destruct (strip_prefix (String c' p) s); auto.
    f_equal. simpl String.length. lia.
Qed.

Lemma plus_loop_Dot k fuel s pos caps :
  String.length s < fuel ->
  plus_loop (run Dot) k fuel pos s caps = greedy k s pos caps.
Proof.
  revert s pos; induction fuel as [|fuel IH]; intros s pos Hf; [lia|].
  destruct s as [|c s]; [reflexivity|].
  cbn [plus_loop run greedy]. unfold one.
  destruct (is_line_terminator c); [reflexivity|]. cbn [negb].
  replace (Nat.ltb pos (S pos)) with true by (symmetry; apply Nat.ltb_lt; lia).
  rewrite IH by (cbn [String.length] in Hf; lia). reflexivity.
Qed.

Lemma run_Cat r1 r2 pos s caps k :
  run (Cat r1 r2) pos s caps k =
  run r1 pos s caps (fun pos' s' caps' => run r2 pos' s' caps' k).
Proof. reflexivity. Qed.

Lemma run_Group r pos s caps k :
  run (Group r) pos s caps k =
  run r pos s caps (fun pos' s' caps' =>
    k pos' s' (caps' ++ [String.substring 0 (pos' - pos) s])).
Proof. reflexivity. Qed.

Lemma run_Plus_Dot k s pos caps :
  run (Plus Dot) pos s caps k = greedy k s pos caps.
Proof. cbn [run]. apply plus_loop_Dot. lia. Qed.
Lemma in_classes_length classes s :
  in_classes classes s = true -> String.length s = List.length classes.
Proof.
  revert s; induction classes as [|p classes IH]; intros [|c s] H;
    simpl in *; try discriminate; auto.
  apply andb_true_iff in H as [_ H]. f_equal; auto.
Qed.

Lemma date_shaped_length d : date_shaped d = true -> String.length d = 10.
Proof. intros H. apply in_classes_length in H. exact H. Qed.

Lemma substring_0_append a b :
  String.substring 0 (String.length a) (a ++ b)%string = a.
Proof.
  induction a as [|c a IH]; simpl; [destruct b; reflexivity|].
  now rewrite IH.
Qed.

Lemma substring_0_all a : String.substring 0 (String.length a) a = a.
Proof. induction a as [|c a IH]; simpl; congruence. Qed.

Lemma run_tail pos s caps :
  run tail_pattern pos s caps final =
  match s with
  | String c d =>
      if Ascii.eqb "-" c && date_shaped d
      then Some (pos + 11, EmptyString, caps ++ [d])
      else None
  | EmptyString => None
  end.
Proof.
  unfold tail_pattern, date_shaped. cbn [run rep_loop]. unfold one.
  destruct s as [|c s]; [reflexivity|].
  destruct (Ascii.eqb "-" c); [|reflexivity]. cbn [andb in_classes].
  do 10 (destruct s as [|? s]; [reflexivity|];
         match goal with
         | |- context [if ?b then _ else None] =>
             destruct b; [|reflexivity]
         end; cbn [andb in_classes]).
  destruct s as [|? s]; [|reflexivity].
  unfold final. cbn [in_classes].
  match goal with
  | |- context [String.substring 0 (?a - ?b) ?t] =>
      replace (a - b) with (String.length t) by (simpl String.length; lia)
  end.
  rewrite substring_0_all. do 3 f_equal. lia.
Qed.

Lemma append_assoc_char pre c s :
  (pre ++ String c s)%string = ((pre ++ String c EmptyString) ++ s)%string.
Proof. induction pre as [|a pre IH]; simpl; congruence. Qed.

Lemma length_append a b :
  String.length (a ++ b)%string = String.length a + String.length b.
Proof. induction a as [|c a IH]; simpl; congruence. Qed.

Lemma no_line_terminator_app a b :
  no_line_terminator (a ++ b)%string =
  no_line_terminator a && no_line_terminator b.
Proof.
  induction a as [|c a IH]; simpl; [reflexivity|].
  rewrite IH. now rewrite andb_assoc.
Qed.

Lemma append_inj_length a1 b1 a2 b2 :
  (a1 ++ b1)%string = (a2 ++ b2)%string ->
  String.length a1 = String.length a2 -> a1 = a2 /\ b1 = b2.
Proof.
  revert a2; induction a1 as [|x a1 IH]; intros [|y a2] H Hlen;
    simpl in *; try discriminate; auto.
  injection H as <- H. destruct (IH a2 H) as [<- <-]; auto.
Qed.

Ltac same_state :=
  match goal with
  | |- Some (?a, _, _) = Some (?b, _, _) => replace a with b by lia; reflexivity
  | |- (?a, _, _) = (?b, _, _) => replace a with b by lia; reflexivity
  end.

Lemma greedy_after_slug s0 p0 caps : forall s pre st,
  s0 = (pre ++ s)%string ->
  (greedy (after_slug s0 p0) s (p0 + String.length pre) caps = Some st <->
   exists sl d,
     s = (sl ++ String "-" d)%string /\ sl <> EmptyString /\
     no_line_terminator sl = true /\ date_shaped d = true /\
     st = (p0 + String.length pre + String.length sl + 11, EmptyString,
           (caps ++ [(pre ++ sl)%string]) ++ [d])).
Proof.
  induction s as [|c s IH]; intros pre st Hs0.
  - simpl. split; [discriminate|].
    intros (sl & d & H & Hne & _). destruct sl; [congruence | discriminate].
  - cbn [greedy]. destruct (is_line_terminator c) eqn:Hc.
    + split; [discriminate|].
      intros (sl & d & H & Hne & Hlt & _). destruct sl as [|a sl]; [congruence|].
      simpl in H, Hlt. injection H as -> _. now rewrite Hc in Hlt.
    + assert (Hs0' : s0 = ((pre ++ String c EmptyString) ++ s)%string)
        by (rewrite Hs0; apply append_assoc_char).
      assert (Hpos : S (p0 + String.length pre)
                     = p0 + String.length (pre ++ String c EmptyString)%string)
        by (rewrite length_append; simpl; lia).
      rewrite Hpos.
      destruct (greedy (after_slug s0 p0) s _ caps) as [st'|] eqn:Hg.
      * apply (IH _ st' Hs0') in Hg as (sl & d & -> & Hne & Hlt & Hd & ->).
        split.
        -- intros [= <-]. exists (String c sl), d.
           repeat split; try discriminate; auto.
           ++ simpl. now rewrite Hc.
           ++ rewrite <- append_assoc_char, length_append. simpl. same_state.
        -- intros (sl2 & d2 & H & Hne2 & Hlt2 & Hd2 & ->).
           destruct sl2 as [|a sl2]; [congruence|].
           simpl in H. injection H as <- H.
           assert (Hlen : String.length sl = String.length sl2).
           { apply (f_equal String.length) in H.
             rewrite !length_append in H. simpl in H.
             apply date_shaped_length in Hd, Hd2. lia. }
           destruct (append_inj_length _ _ _ _ H Hlen) as [<- [= <-]].
           rewrite <- append_assoc_char, length_append. simpl. same_state.
      * unfold after_slug at 1. rewrite run_tail.
        replace (p0 + String.length (pre ++ String c EmptyString)%string - p0)
          with (String.length (pre ++ String c EmptyString)%string) by lia.
        rewrite Hs0', substring_0_append.
        split.
        -- destruct s as [|h d]; [discriminate|].
           destruct (Ascii.eqb "-" h) eqn:Hh; [|discriminate].
           apply Ascii.eqb_eq in Hh as <-.
           destruct (date_shaped d) eqn:Hd; [|discriminate].
           intros [= <-]. exists (String c EmptyString), d.
           repeat split; try discriminate; auto.
           ++ simpl. now rewrite Hc.
           ++ rewrite length_append. simpl. same_state.
        -- intros (sl & d & H & Hne & Hlt & Hd & ->).
           destruct sl as [|a sl]; [congruence|].
           simpl in H. injection H as <- ->.
           destruct sl as [|b sl].
           ++ simpl. rewrite Hd. simpl. rewrite length_append. simpl.
              same_state.
           ++ exfalso.
              assert (Hex : exists st2, greedy (after_slug s0 p0)
                        (String b sl ++ String "-" d)%string
                        (p0 + String.length (pre ++ String c EmptyString)%string)
                        caps = Some st2).
              { eexists. apply (IH _ _ Hs0'). exists (String b sl), d.
                simpl in Hlt. apply andb_true_iff in Hlt as [_ Hlt].
                repeat split; try discriminate; auto. }
              destruct Hex as [st2 Hex]. rewrite Hex in Hg. discriminate.
Qed.

End RegexFacts.

(** ** The session identity parser *)

Section Identity.
Import Regex RegexFacts.

Lemma session_pattern_unfold :
  session_pattern =
  Cat Bol (Cat (Lit "ANL-") (Cat (Group (Plus Dot)) tail_pattern)).
Proof. reflexivity. Qed.

(** The matcher on the session pattern, in closed form. *)
Lemma parseSessionId_greedy name :
  parseSessionId name =
  match strip_prefix "ANL-" name with
  | Some rest =>
      match greedy (after_slug rest 4) rest 4 [] with
      | Some (_, _, caps) => Some {| slug := nth 0 caps ""; date := nth 1 caps "" |}
      | None => None
      end
  | None => None
  end.
Proof.
  unfold parseSessionId. rewrite session_pattern_unfold, str_match_Bol.
  rewrite run_Cat, run_Lit by discriminate.
  destruct (strip_prefix "ANL-" name) as [rest|]; [|reflexivity].
  rewrite run_Cat, run_Group, run_Plus_Dot.
  change (0 + String.length "ANL-") with 4.
  change (fun (pos' : nat) (s' : string) (caps' : list string) =>
            run tail_pattern pos' s'
              (caps' ++ [String.substring 0 (pos' - 4) rest])
              (fun pos s caps => Some (pos, s, caps)))
    with (after_slug rest 4).
  destruct (greedy (after_slug rest 4) rest 4 []) as [[[stop r] caps]|]; reflexivity.
Qed.

Lemma strip_prefix_Some p s rest :
  strip_prefix p s = Some rest <-> s = (p ++ rest)%string.
Proof.
  revert s; induction p as [|a p IH]; intros s; simpl.
  - split; [intros [= ->] | intros ->]; reflexivity.
  - destruct s as [|b s]; [split; discriminate|].
    destruct (Ascii.eqb_spec a b) as [<-|Hab].
    + rewrite IH. split; [intros -> | intros [= ->]]; reflexivity.
    + split; [discriminate | intros [= ? _]; congruence].
Qed.

Lemma parseSessionId_iff name id :
  parseSessionId name = Some id <->
  name = ("ANL-" ++ slug id ++ "-" ++ date id)%string /\
  slug id <> EmptyString /\
  no_line_terminator (slug id) = true /\
  date_shaped (date id) = true.
Proof.
  rewrite parseSessionId_greedy. destruct id as [sl d]. cbn [slug date].
  destruct (strip_prefix "ANL-" name) as [rest|] eqn:Hp.
  - apply strip_prefix_Some in Hp. subst name.
    pose proof (greedy_after_slug rest 4 [] rest EmptyString) as G.
    cbn [String.length] in G. rewrite Nat.add_0_r in G.
    destruct (greedy (after_slug rest 4) rest 4 []) as [[[stop r] caps]|] eqn:Hg.
    + destruct (proj1 (G _ eq_refl) eq_refl)
        as (sl' & d' & -> & Hne & Hlt & Hd & [= -> -> ->]).
      cbn [nth app]. split.
      * intros [= <- <-]. repeat split; auto.
      * intros (H & _ & _ & Hd2). f_equal.
        injection H as H.
        assert (Hlen : String.length sl' = String.length sl).
        { apply (f_equal String.length) in H. rewrite !length_append in H.
          simpl in H. apply date_shaped_length in Hd, Hd2. lia. }
        destruct (append_inj_length _ _ _ _ H Hlen) as [-> [= ->]].
        reflexivity.
    + split; [discriminate|]. intros ([= ->] & Hne & Hlt & Hd). exfalso.
      assert (Hex : exists st, @None state = Some st).
      { eexists. apply (G _ eq_refl). exists sl, d. repeat split; eauto. }
      destruct Hex as [st Hex]. discriminate.
  - split; [discriminate|]. intros (-> & _). exfalso.
    assert (H : strip_prefix "ANL-" ("ANL-" ++ sl ++ "-" ++ d)%string
                = Some (sl ++ "-" ++ d)%string)
      by (apply strip_prefix_Some; reflexivity).
    congruence.
Qed.

End Identity.

(** ** The safe readers *)

Section Readers.
Context {host : Host}.

Lemma readFile_missing fs path :
  existsSync fs path = false ->
  readFile fs path = Throw "ENOENT: no such file or directory".
Proof. unfold existsSync, readFile. destruct (fs path); [discriminate | reflexivity]. Qed.

Lemma readFile_Normal_exists fs path text :
  readFile fs path = Normal text -> existsSync fs path = true.
Proof. unfold existsSync, readFile. destruct (fs path); [reflexivity | discriminate]. Qed.
Lemma readJsonFile_eq fs path : readJsonFile fs path = Normal (json_at fs path).
Proof.
  unfold readJsonFile, json_at.
  destruct (existsSync fs path) eqn:He; cbn [negb].
  - destruct (readFile fs path) as [text|m]; cbn [bind try_catch]; [|reflexivity].
    destruct (JSON_parse text); reflexivity.
  - now rewrite (readFile_missing _ _ He).
Qed.

Lemma readTextFile_eq fs path : readTextFile fs path = Normal (text_at fs path).
Proof.
  unfold readTextFile, text_at.
  destruct (existsSync fs path) eqn:He; cbn [negb].
  - destruct (readFile fs path) as [text|m]; reflexivity.
  - now rewrite (readFile_missing _ _ He).
Qed.

End Readers.

(** ** Sorting *)

Section SortFacts.
Variable A : Type.
Variable comparefn : A -> A -> Z.

Lemma insert_perm x l : Permutation (insert comparefn x l) (x :: l).
Proof.
  induction l as [|y l IH]; simpl; [reflexivity|].
  destruct (comparefn x y <=? 0)%Z; [reflexivity|].
  rewrite IH. apply perm_swap.
Qed.

Lemma Array_sort_perm l : Permutation (Array_sort comparefn l) l.
Proof.
  induction l as [|x l IH]; simpl; [reflexivity|].
  rewrite insert_perm. now constructor.
Qed.

Lemma Array_sort_length l : List.length (Array_sort comparefn l) = List.length l.
Proof. apply Permutation_length, Array_sort_perm. Qed.

(** Sortedness, for a comparison function that is a total preorder. *)
Variable before : A -> A -> Prop.
Hypothesis before_le : forall a b, (comparefn a b <= 0)%Z -> before a b.
Hypothesis before_gt : forall a b, (0 < comparefn a b)%Z -> before b a.
Hypothesis before_trans : forall a b c, before a b -> before b c -> before a c.

Lemma insert_sorted x l :
  StronglySorted before l -> StronglySorted before (insert comparefn x l).
Proof.
  induction 1 as [|y l Hs IH Hy]; simpl.
  - repeat constructor.
  - destruct (Z.leb_spec (comparefn x y) 0) as [Hle|Hgt].
    + constructor; [now constructor|].
      constructor; [now apply before_le|].
      rewrite Forall_forall in *. intros z Hz.
      eapply before_trans; [apply before_le, Hle | now apply Hy].
    + constructor; [exact IH|].
      rewrite Forall_forall in *. intros z Hz.
      apply (Permutation_in _ (insert_perm x l)) in Hz.
      destruct Hz as [<-|Hz]; [now apply before_gt | now apply Hy].
Qed.

Lemma Array_sort_sorted l : StronglySorted before (Array_sort comparefn l).
Proof.
  induction l as [|x l IH]; simpl; [constructor | now apply insert_sorted].
Qed.

End SortFacts.

Section Stability.
Variable A : Type.
Variable comparefn : A -> A -> Z.
Variable key : A -> string.
Hypothesis same_key : forall a b, key a = key b -> comparefn a b = 0%Z.

Lemma insert_filter_key k x l :
  filter (fun a => String.eqb (key a) k) (insert comparefn x l) =
  filter (fun a => String.eqb (key a) k) (x :: l).
Proof.
  induction l as [|y l IH]; [reflexivity|].
  cbn [insert]. destruct (Z.leb_spec (comparefn x y) 0) as [Hle|Hgt]; [reflexivity|].
  cbn [filter] in *. rewrite IH.
  destruct (String.eqb_spec (key x) k) as [Hx|Hx]; [|reflexivity].
  destruct (String.eqb_spec (key y) k) as [Hy|Hy]; [|reflexivity].
  rewrite (same_key x y) in Hgt by congruence. lia.
Qed.

(** The entries under one key keep their relative order. *)
Lemma Array_sort_stable k l :
  filter (fun a => String.eqb (key a) k) (Array_sort comparefn l) =
  filter (fun a => String.eqb (key a) k) l.
Proof.
  induction l as [|x l IH]; [reflexivity|].
  cbn [Array_sort fold_right]. rewrite insert_filter_key.
  cbn [filter]. fold (Array_sort comparefn l). now rewrite IH.
Qed.

End Stability.

(** ** Order of date tokens *)

Section StringOrder.

Lemma string_compare_refl s : String.compare s s = Eq.
Proof.
  induction s as [|c s IH]; simpl; [reflexivity|].
  unfold Ascii.compare. now rewrite N.compare_refl.
Qed.

Lemma string_le_trans a b c :
  String.compare a b <> Gt -> String.compare b c <> Gt -> String.compare a c <> Gt.
Proof.
  revert b c; induction a as [|x a IH]; intros [|y b] [|z c]; simpl;
    try congruence.
  unfold Ascii.compare.
  destruct (N.compare_spec (N_of_ascii x) (N_of_ascii y)) as [Hxy|Hxy|Hxy];
    destruct (N.compare_spec (N_of_ascii y) (N_of_ascii z)) as [Hyz|Hyz|Hyz];
    destruct (N.compare_spec (N_of_ascii x) (N_of_ascii z)) as [Hxz|Hxz|Hxz];
    try congruence; try lia.
  apply IH.
Qed.

Lemma localeCompare_le a b :
  (localeCompare a b <= 0)%Z <-> String.compare a b <> Gt.
Proof. unfold localeCompare. destruct (String.compare a b); split; (lia || congruence). Qed.

Lemma localeCompare_gt a b :
  (0 < localeCompare a b)%Z -> String.compare b a <> Gt.
Proof.
  unfold localeCompare. rewrite (String.compare_antisym b a).
  destruct (String.compare a b); simpl; (lia || congruence).
Qed.

End StringOrder.

(** ** Summary, detail and the list loop *)

Section RepositoryFacts.
Context {host : Host}.

Lemma getSessionSummary_eq fs analysisDir folderName :
  getSessionSummary fs analysisDir folderName =
  match parseSessionId folderName with
  | None => Normal None
  | Some parsed =>
      match fs (join analysisDir folderName) with
      | None => Throw "ENOENT: no such file or directory"
      | Some (File _) => Normal None
      | Some (Directory _) =>
          Normal (Some (summary_record fs analysisDir folderName parsed))
      end
  end.
Proof.
  unfold getSessionSummary, stat, summary_record, conclusionsPath.
  destruct (parseSessionId folderName) as [parsed|]; [|reflexivity].
  destruct (fs (join analysisDir folderName)) as [[content|listing]|];
    cbn [bind isDirectory negb]; try reflexivity.
  set (cpath := join (join analysisDir folderName) "conclusions.json").
  destruct (existsSync fs cpath) eqn:He.
  - now rewrite readJsonFile_eq.
  - cbn [bind]. unfold json_at. now rewrite (readFile_missing _ _ He).
Qed.

Lemma getSessionDetail_eq fs analysisDir sessionId :
  getSessionDetail fs analysisDir sessionId =
  match parseSessionId sessionId with
  | None => Normal None
  | Some parsed =>
      if existsSync fs (join analysisDir sessionId)
      then Normal (Some (detail_record fs analysisDir sessionId parsed))
      else Normal None
  end.
Proof.
  unfold getSessionDetail, detail_record.
  destruct (parseSessionId sessionId) as [parsed|]; [|reflexivity].
  destruct (existsSync fs (join analysisDir sessionId)); [|reflexivity].
  cbn [negb]. rewrite readTextFile_eq, !readJsonFile_eq. reflexivity.
Qed.

(** A folder is skipped, listed, or fails the loop. *)
Lemma getSessionSummary_listed fs analysisDir folderName :
  (parseSessionId folderName <> None ->
   existsSync fs (join analysisDir folderName) = true) ->
  getSessionSummary fs analysisDir folderName =
  Normal (listed fs analysisDir folderName).
Proof.
  intros H. rewrite getSessionSummary_eq. unfold listed, existsSync in *.
  destruct (parseSessionId folderName) as [parsed|]; [|reflexivity].
  destruct (fs (join analysisDir folderName)) as [[content|listing]|];
    try reflexivity.
  discriminate H. discriminate.
Qed.

Lemma summaries_cons fs analysisDir f folders :
  summaries fs analysisDir (f :: folders) =
  (match listed fs analysisDir f with Some s => [s] | None => [] end)
    ++ summaries fs analysisDir folders.
Proof. reflexivity. Qed.

Lemma collect_sessions_inv fs analysisDir folders : forall sessions result,
  collect_sessions fs analysisDir folders sessions = Normal result ->
  result = sessions ++ summaries fs analysisDir folders.
Proof.
  induction folders as [|f folders IH]; intros sessions result; cbn [collect_sessions].
  - intros [= <-]. cbn. now rewrite app_nil_r.
  - rewrite getSessionSummary_eq, summaries_cons. unfold listed.
    destruct (parseSessionId f) as [parsed|]; cbn [bind].
    + destruct (fs (join analysisDir f)) as [[content|listing]|]; cbn [bind];
        try discriminate; intros H; apply IH in H; subst result;
        now rewrite <- ?app_assoc.
    + intros H. now apply IH in H.
Qed.

Lemma collect_sessions_ok fs analysisDir folders : forall sessions,
  (forall f, In f folders -> parseSessionId f <> None ->
             existsSync fs (join analysisDir f) = true) ->
  collect_sessions fs analysisDir folders sessions =
  Normal (sessions ++ summaries fs analysisDir folders).
Proof.
  induction folders as [|f folders IH]; intros sessions H; cbn [collect_sessions].
  - cbn. now rewrite app_nil_r.
  - rewrite getSessionSummary_listed by (apply H; now left).
    cbn [bind]. rewrite IH by (intros; apply H; auto; now right).
    rewrite summaries_cons.
    destruct (listed fs analysisDir f); now rewrite <- ?app_assoc.
Qed.

(** One folder whose [stat] fails ends the loop with its error. *)
Lemma collect_sessions_stat_failure fs analysisDir folders : forall sessions f,
  In f folders -> parseSessionId f <> None ->
  existsSync fs (join analysisDir f) = false ->
  collect_sessions fs analysisDir folders sessions =
  Throw "ENOENT: no such file or directory".
Proof.
  induction folders as [|g folders IH]; intros sessions f Hin Hp He; [destruct Hin|].
  cbn [collect_sessions]. rewrite getSessionSummary_eq.
  destruct Hin as [->|Hin].
  - unfold existsSync in He.
    destruct (parseSessionId f); [|congruence].
    destruct (fs (join analysisDir f)); [discriminate | reflexivity].
  - destruct (parseSessionId g) as [parsed|]; cbn [bind]; [|eauto].
    destruct (fs (join analysisDir g)) as [[content|listing]|]; cbn [bind]; eauto.
Qed.

Lemma in_summaries fs analysisDir folders s :
  In s (summaries fs analysisDir folders) <->
  exists f, In f folders /\ listed fs analysisDir f = Some s.
Proof.
  unfold summaries. rewrite in_flat_map. split; intros (f & Hf & H); exists f;
    (split; [exact Hf|]); destruct (listed fs analysisDir f) as [s'|].
  - destruct H as [->|[]]. reflexivity.
  - destruct H.
  - injection H as ->. now left.
  - discriminate.
Qed.

Lemma listed_id fs analysisDir f s :
  listed fs analysisDir f = Some s -> Summary.id s = f.
Proof.
  unfold listed. destruct (parseSessionId f); [|discriminate].
  destruct (fs (join analysisDir f)) as [[?|?]|]; try discriminate.
  now intros [= <-].
Qed.

Lemma listed_createdAt fs analysisDir f s :
  listed fs analysisDir f = Some s ->
  exists parsed, parseSessionId f = Some parsed /\ Summary.createdAt s = date parsed.
Proof.
  unfold listed. destruct (parseSessionId f) as [parsed|]; [|discriminate].
  destruct (fs (join analysisDir f)) as [[?|?]|]; try discriminate.
  intros [= <-]. now exists parsed.
Qed.

End RepositoryFacts.

(** ** The list route *)

Section ListFacts.
Context {host : Host}.

Lemma readdir_Normal_exists fs path folders :
  readdir fs path = Normal folders -> existsSync fs path = true.
Proof. unfold readdir, existsSync. destruct (fs path); [reflexivity | discriminate]. Qed.
Lemma list_route_enumerated ctx fs analysisDir folders :
  analysisDir_of ctx = Normal analysisDir ->
  readdir fs analysisDir = Normal folders ->
  list_route ctx fs =
  match collect_sessions fs analysisDir folders [] with
  | Normal collected => Normal (list_ok (Array_sort by_date_descending collected))
  | Throw message => Normal (json_response 500 (ErrorPayload message))
  end.
Proof.
  intros Hd Hr. unfold list_route. rewrite Hd. cbn [bind].
  rewrite (readdir_Normal_exists _ _ _ Hr), Hr. cbn [negb bind].
  destruct (collect_sessions fs analysisDir folders []); reflexivity.
Qed.

(** Every successful list is the sorted sequence of what some folders
    contributed. *)
Lemma list_route_success ctx fs sessions total :
  list_route ctx fs = Normal (json_response 200 (ListPayload sessions total)) ->
  total = List.length sessions /\
  exists analysisDir folders,
    sessions = Array_sort by_date_descending (summaries fs analysisDir folders).
Proof.
  unfold list_route.
  destruct (analysisDir_of ctx) as [analysisDir|m]; cbn [bind try_catch];
    [|discriminate].
  destruct (existsSync fs analysisDir); cbn [negb].
  - destruct (readdir fs analysisDir) as [folders|m]; cbn [bind try_catch];
      [|discriminate].
    destruct (collect_sessions fs analysisDir folders []) as [collected|m] eqn:Hc;
      cbn [bind try_catch]; [|discriminate].
    apply collect_sessions_inv in Hc. cbn [app] in Hc. subst collected.
    intros [= <- <-]. split; [reflexivity|]. now exists analysisDir, folders.
  - cbn [try_catch]. intros [= <- <-]. split; [reflexivity|].
    now exists analysisDir, [].
Qed.

Lemma by_date_descending_same_date a b :
  Summary.createdAt a = Summary.createdAt b -> by_date_descending a b = 0%Z.
Proof.
  intros H. unfold by_date_descending, localeCompare.
  now rewrite H, string_compare_refl.
Qed.
Lemma Array_sort_by_date l :
  StronglySorted not_older (Array_sort by_date_descending l).
Proof.
  apply Array_sort_sorted; unfold not_older, by_date_descending.
  - intros a b. apply localeCompare_le.
  - intros a b. apply localeCompare_gt.
  - intros a b c Hab Hbc. eapply string_le_trans; eassumption.
Qed.

End ListFacts.

(** ** Order of date tokens as dates *)

Section DateOrder.

Lemma digits_value_acc s : forall acc,
  digits_value acc s = acc * 10 ^ count_digits s + digits_value 0 s.
Proof.
  induction s as [|c s IH]; intros acc; cbn [digits_value count_digits].
  - simpl. lia.
  - destruct (Regex.is_digit c).
    + rewrite (IH (10 * acc + _)), (IH (10 * 0 + _)).
      change (1 + count_digits s) with (S (count_digits s)).
      rewrite Nat.pow_succ_r'. nia.
    + rewrite IH. reflexivity.
Qed.

Lemma digits_value_bound s : digits_value 0 s < 10 ^ count_digits s.
Proof.
  induction s as [|c s IH]; cbn [digits_value count_digits]; [simpl; lia|].
  destruct (Regex.is_digit c) eqn:Hc; [|exact IH].
  rewrite digits_value_acc.
  change (1 + count_digits s) with (S (count_digits s)).
  rewrite Nat.pow_succ_r'.
  unfold Regex.is_digit in Hc. apply andb_true_iff in Hc as [H1 H2].
  apply Nat.leb_le in H1, H2. nia.
Qed.
Lemma count_digits_in_classes classes :
  Forall digit_or_hyphen classes ->
  forall a b, in_classes classes a = true -> in_classes classes b = true ->
              count_digits a = count_digits b.
Proof.
  induction 1 as [|p classes Hp _ IH]; intros [|x a] [|y b] Ha Hb;
    simpl in *; try discriminate; [reflexivity|].
  apply andb_true_iff in Ha as [Hx Ha], Hb as [Hy Hb].
  rewrite (IH a b Ha Hb). f_equal.
  destruct Hp as [->| ->].
  - now rewrite Hx, Hy.
  - apply Ascii.eqb_eq in Hx, Hy. now subst.
Qed.

Lemma ascii_compare_nat x y :
  Ascii.compare x y = Nat.compare (nat_of_ascii x) (nat_of_ascii y).
Proof. unfold Ascii.compare, nat_of_ascii. now rewrite N2Nat.inj_compare. Qed.

Lemma compare_in_classes classes :
  Forall digit_or_hyphen classes ->
  forall a b, in_classes classes a = true -> in_classes classes b = true ->
              String.compare a b = Nat.compare (digits_value 0 a) (digits_value 0 b).
Proof.
  induction 1 as [|p classes Hp Hcl IH]; intros [|x a] [|y b] Ha Hb;
    simpl in Ha, Hb; try discriminate; [reflexivity|].
  apply andb_true_iff in Ha as [Hx Ha], Hb as [Hy Hb].
  pose proof (count_digits_in_classes _ Hcl a b Ha Hb) as Hn.
  pose proof (digits_value_bound a) as Ba.
  pose proof (digits_value_bound b) as Bb.
  specialize (IH a b Ha Hb).
  cbn [String.compare digits_value]. destruct Hp as [->| ->].
  - rewrite Hx, Hy, (digits_value_acc a), (digits_value_acc b), <- Hn.
    rewrite <- Hn in Bb. rewrite ascii_compare_nat.
    unfold Regex.is_digit in Hx, Hy.
    apply andb_true_iff in Hx as [Hx1 Hx2], Hy as [Hy1 Hy2].
    apply Nat.leb_le in Hx1, Hx2, Hy1, Hy2.
    set (P := 10 ^ count_digits a) in *.
    destruct (Nat.compare_spec (nat_of_ascii x) (nat_of_ascii y)) as [E|L|G].
    + rewrite IH, E.
      destruct (Nat.compare_spec (digits_value 0 a) (digits_value 0 b));
        symmetry; [apply Nat.compare_eq_iff | apply Nat.compare_lt_iff
                   | apply Nat.compare_gt_iff]; nia.
    + symmetry. apply Nat.compare_lt_iff. nia.
    + symmetry. apply Nat.compare_gt_iff. nia.
  - apply Ascii.eqb_eq in Hx, Hy. subst x y. exact IH.
Qed.

(** Date tokens are ordered as the dates they spell. *)
Lemma compare_date_shaped a b :
  date_shaped a = true -> date_shaped b = true ->
  String.compare a b = Nat.compare (date_number a) (date_number b).
Proof.
  apply compare_in_classes.
  repeat constructor; (now left) || (now right).
Qed.

End DateOrder.

(** ** Status of a session *)

Section Status.
Context {host : Host}.

(** The summary calls a session completed exactly when the conclusions
    file exists, whether or not it can be read and parsed. *)
Lemma summary_status_iff fs analysisDir folderName s :
  getSessionSummary fs analysisDir folderName = Normal (Some s) ->
  (Summary.status s = completed <->
   existsSync fs (conclusionsPath analysisDir folderName) = true) /\
  Summary.hasConclusions s = existsSync fs (conclusionsPath analysisDir folderName).
Proof.
  rewrite getSessionSummary_eq.
  destruct (parseSessionId folderName) as [parsed|]; [|discriminate].
  destruct (fs (join analysisDir folderName)) as [[?|?]|]; try discriminate.
  intros [= <-]. cbn.
  destruct (existsSync fs (conclusionsPath analysisDir folderName));
    split; try reflexivity; split; congruence.
Qed.

(** The detail calls it completed exactly when the conclusions file was
    read and parsed to a truthy value. *)
Lemma detail_status_iff fs analysisDir sessionId d :
  getSessionDetail fs analysisDir sessionId = Normal (Some d) ->
  Detail.conclusions d = json_at fs (conclusionsPath analysisDir sessionId) /\
  (Detail.status d = completed <-> Js.truthy (Detail.conclusions d) = true).
Proof.
  rewrite getSessionDetail_eq.
  destruct (parseSessionId sessionId) as [parsed|]; [|discriminate].
  destruct (existsSync fs (join analysisDir sessionId)); [|discriminate].
  intros [= <-]. cbn. split; [reflexivity|].
  destruct (Js.truthy _); split; congruence.
Qed.

(** A conclusions document that parsed to an object makes the detail
    completed. *)
Lemma detail_completed_on_object fs analysisDir sessionId d props :
  getSessionDetail fs analysisDir sessionId = Normal (Some d) ->
  Detail.conclusions d = VObject props -> Detail.status d = completed.
Proof.
  intros H Hc. apply detail_status_iff in H as [_ H]. apply H.
  now rewrite Hc.
Qed.

(** Whenever the conclusions file of a session folder exists and does not
    read or parse, the two operations disagree. *)
Lemma status_disagrees_on_unparsed_conclusions fs analysisDir sessionId listing :
  parseSessionId sessionId <> None ->
  fs (join analysisDir sessionId) = Some (Directory listing) ->
  existsSync fs (conclusionsPath analysisDir sessionId) = true ->
  readJsonFile fs (conclusionsPath analysisDir sessionId) = Normal VNull ->
  exists s d,
    getSessionSummary fs analysisDir sessionId = Normal (Some s) /\
    getSessionDetail fs analysisDir sessionId = Normal (Some d) /\
    Summary.status s = completed /\ Detail.status d = in_progress.
Proof.
  intros Hp Hdir He Hj. rewrite readJsonFile_eq in Hj. injection Hj as Hj.
  rewrite getSessionSummary_eq, getSessionDetail_eq. unfold existsSync at 1.
  destruct (parseSessionId sessionId) as [parsed|]; [|congruence].
  rewrite Hdir. do 2 eexists. repeat split.
  - cbn. now rewrite He.
  - cbn. unfold conclusionsPath in Hj. now rewrite Hj.
Qed.

End Status.

(** C1.  The claim: in both the summary and the detail, the status is
    [completed] exactly when a conclusions artifact exists and parsed
    successfully, and both derive it the same way.  On a session whose
    conclusions file exists but does not parse, the safe reader yields
    "absent", the detail reports [in_progress], and the summary reports
    [completed] with [hasConclusions] set: the summary tests the existence
    of the file ([summary_status_iff]), the detail the parsed value
    ([detail_status_iff]). *)
Theorem summary_completed_without_parsed_conclusions :
  let fs := Fixture.truncated_conclusions in
  let dir := Fixture.analysisDir in
  let folder := "ANL-cache-2026-03-01" in
  @readJsonFile Sample.host fs (@conclusionsPath Sample.host dir folder) = Normal VNull /\
  (exists s, @getSessionSummary Sample.host fs dir folder = Normal (Some s) /\
             Summary.status s = completed /\ Summary.hasConclusions s = true) /\
  (exists d, @getSessionDetail Sample.host fs dir folder = Normal (Some d) /\
             Detail.status d = in_progress /\ Detail.conclusions d = VNull).
Proof.
  cbv zeta. split; [reflexivity|]. split; eexists; (split; [reflexivity|]); split; reflexivity.
Qed.

(** ** The artifact reader *)

(** C3, as the code has it.  [readTextFile] gives the text of the file
    whenever it can be read, and "absent" otherwise; [readJsonFile] gives
    the value that [JSON.parse] makes of that text, whatever its type,
    whenever the file can be read and parses, and "absent" otherwise;
    neither throws; a missing file, a file that cannot be read and a
    document that does not parse all give "absent". *)
Theorem safe_reads_collapse_to_absent {host : Host} (fs : filesystem) (path : string) :
  (readTextFile fs path = Normal None \/
   exists text, readFile fs path = Normal text /\
                readTextFile fs path = Normal (Some text)) /\
  (readJsonFile fs path = Normal VNull \/
   exists text v, readFile fs path = Normal text /\ JSON_parse text = Normal v /\
                  readJsonFile fs path = Normal v) /\
  (existsSync fs path = false ->
   readTextFile fs path = Normal None /\ readJsonFile fs path = Normal VNull) /\
  (forall message, readFile fs path = Throw message ->
   readTextFile fs path = Normal None /\ readJsonFile fs path = Normal VNull) /\
  (forall text message,
   readFile fs path = Normal text -> JSON_parse text = Throw message ->
   readJsonFile fs path = Normal VNull) /\
  (forall text, readFile fs path = Normal text ->
   readTextFile fs path = Normal (Some text)) /\
  (forall text v,
   readFile fs path = Normal text -> JSON_parse text = Normal v ->
   readJsonFile fs path = Normal v) /\
  (forall message,
   readTextFile fs path <> Throw message /\ readJsonFile fs path <> Throw message).
Proof.
  rewrite readTextFile_eq, readJsonFile_eq. unfold text_at, json_at.
  split; [|split; [|split; [|split; [|split; [|split; [|split]]]]]].
  - destruct (readFile fs path) as [text|m]; [right | left]; eauto.
  - destruct (readFile fs path) as [text|m]; [|now left].
    destruct (JSON_parse text) as [v|m] eqn:Hp; [right | left]; eauto.
  - intros H. now rewrite (readFile_missing _ _ H).
  - intros message H. now rewrite H.
  - intros text m H Hp. now rewrite H, Hp.
  - intros text H. now rewrite H.
  - intros text v H Hp. now rewrite H, Hp.
  - intros message. split; discriminate.
Qed.

Lemma safe_reads_collapse_to_absent_witness :
  let missing := Fixture.at_ "ANL-alpha-2026-01-01/conclusions.json" in
  let cut_short := Fixture.at_ "ANL-cache-2026-03-01/conclusions.json" in
  let readable := Fixture.at_ (Fixture.topic_session ++ "/conclusions.json") in
  let document := Sample.doc "{'topic': 'Cache design'}" in
  (readTextFile Fixture.truncated_conclusions missing = Normal None /\
   @readJsonFile Sample.host Fixture.truncated_conclusions missing = Normal VNull) /\
  (readTextFile Fixture.unreadable_conclusions cut_short = Normal None /\
   @readJsonFile Sample.host Fixture.unreadable_conclusions cut_short = Normal VNull) /\
  @readJsonFile Sample.host Fixture.truncated_conclusions cut_short = Normal VNull /\
  readTextFile (Fixture.with_conclusions document) readable = Normal (Some document) /\
  @readJsonFile Sample.host (Fixture.with_conclusions document) readable
    = Normal (VObject [("topic", VString "Cache design")]).
Proof.
  cbv zeta.
  pose proof (@safe_reads_collapse_to_absent Sample.host
                Fixture.truncated_conclusions
                (Fixture.at_ "ANL-alpha-2026-01-01/conclusions.json"))
    as (_ & _ & Hmissing & _).
  pose proof (@safe_reads_collapse_to_absent Sample.host
                Fixture.unreadable_conclusions
                (Fixture.at_ "ANL-cache-2026-03-01/conclusions.json"))
    as (_ & _ & _ & Hunreadable & _).
  pose proof (@safe_reads_collapse_to_absent Sample.host
                Fixture.truncated_conclusions
                (Fixture.at_ "ANL-cache-2026-03-01/conclusions.json"))
    as (_ & _ & _ & _ & Hmalformed & _).
  pose proof (@safe_reads_collapse_to_absent Sample.host
                (Fixture.with_conclusions (Sample.doc "{'topic': 'Cache design'}"))
                (Fixture.at_ (Fixture.topic_session ++ "/conclusions.json")))
    as (_ & _ & _ & _ & _ & Htext & Hjson & _).
  split; [exact (Hmissing eq_refl)|].
  split; [exact (Hunreadable "EACCES: permission denied" eq_refl)|].
  split; [exact (Hmalformed (Sample.doc "{'topic': 'Cache des")
                            "Unexpected token in JSON" eq_refl eq_refl)|].
  split.
  - exact (Htext (Sample.doc "{'topic': 'Cache design'}") eq_refl).
  - exact (Hjson (Sample.doc "{'topic': 'Cache design'}")
                 (VObject [("topic", VString "Cache design")]) eq_refl eq_refl).
Defined.

(** The claim of C3 as written, that [readJsonFile] returns a parsed
    JSON object or "absent", fails on a document that is well formed and
    is not an object: for the document [42] the reader returns the number
    42, which is neither an object nor "absent". *)
Lemma readJsonFile_returns_the_number_of_a_number_document :
  @JSON_parse Sample.host "42" = Normal (VNumber 42) /\
  @readJsonFile Sample.host (Fixture.with_conclusions "42")
    (Fixture.at_ (Fixture.topic_session ++ "/conclusions.json"))
    = Normal (VNumber 42) /\
  Card.isObject (VNumber 42) = false /\
  VNumber 42 <> VNull.
Proof.
  split; [reflexivity|]. split; [reflexivity|]. split; [reflexivity | discriminate].
Qed.

(** ** The detail operation *)

Section DetailFacts.
Context {host : Host}.

(** [getSessionDetail] never throws; it answers "not found" exactly for
    an identifier that does not parse or a session path at which
    nothing exists, and a record otherwise. *)
Lemma getSessionDetail_outcome fs analysisDir sessionId :
  (parseSessionId sessionId = None \/
   existsSync fs (join analysisDir sessionId) = false) /\
  getSessionDetail fs analysisDir sessionId = Normal None
  \/
  exists parsed,
    parseSessionId sessionId = Some parsed /\
    existsSync fs (join analysisDir sessionId) = true /\
    getSessionDetail fs analysisDir sessionId =
    Normal (Some (detail_record fs analysisDir sessionId parsed)).
Proof.
  rewrite getSessionDetail_eq.
  destruct (parseSessionId sessionId) as [parsed|]; [|left; auto].
  destruct (existsSync fs (join analysisDir sessionId)); [|left; auto].
  right. now exists parsed.
Qed.

Lemma detail_route_not_found ctx fs encodedId sessionId analysisDir :
  decodeURIComponent encodedId = Normal sessionId ->
  analysisDir_of ctx = Normal analysisDir ->
  parseSessionId sessionId = None \/
  existsSync fs (join analysisDir sessionId) = false ->
  detail_route ctx fs encodedId =
  Normal (json_response 404 (ErrorPayload "Session not found")).
Proof.
  intros Hdec Hdir H. unfold detail_route. rewrite Hdec, Hdir. cbn [bind].
  rewrite getSessionDetail_eq.
  destruct H as [-> | H]; [reflexivity|].
  destruct (parseSessionId sessionId); [rewrite H|]; reflexivity.
Qed.

(** A regular file at the session path is served by the detail operation
    and left out by the list. *)
Lemma regular_file_is_detailed_but_not_listed fs analysisDir sessionId content :
  parseSessionId sessionId <> None ->
  fs (join analysisDir sessionId) = Some (File content) ->
  (exists d, getSessionDetail fs analysisDir sessionId = Normal (Some d)) /\
  getSessionSummary fs analysisDir sessionId = Normal None.
Proof.
  intros Hp Hf. rewrite getSessionDetail_eq, getSessionSummary_eq.
  unfold existsSync. rewrite Hf.
  destruct (parseSessionId sessionId) as [parsed|]; [|congruence].
  split; [eexists|]; reflexivity.
Qed.

End DetailFacts.

(** C4.  The claim: a detail request answers "not found" when the
    identifier is invalid or the session directory does not exist, and a
    detail record otherwise.  The code answers "not found" when nothing
    exists at the session path ([detail_route_not_found]); for a regular
    file named like a session, no session directory exists, the list
    leaves the entry out, and the detail request still answers 200 with a
    record whose artifacts are all absent. *)
Theorem detail_of_a_regular_file_is_served :
  let fs := Fixture.file_named_like_session in
  let id := "ANL-notes-2026-03-01" in
  stat fs (Fixture.at_ id) = Normal {| isDirectory := false |} /\
  @handleAnalysisRoutes Sample.host Fixture.list_request fs =
    Normal (Some (@json_response 200 (ListPayload [] 0))) /\
  @handleAnalysisRoutes Sample.host (Fixture.detail_request id) fs =
    Normal (Some (@json_response 200 (DetailPayload
      {| Detail.id := id; Detail.name := id;
         Detail.topic := VString "notes"; Detail.createdAt := "2026-03-01";
         Detail.status := in_progress; Detail.discussion := None;
         Detail.conclusions := VNull; Detail.explorations := VNull;
         Detail.perspectives := VNull |}))).
Proof. cbv zeta. repeat split; vm_compute; reflexivity. Qed.

(** ** The topic of a session *)

Lemma topic_of_derived {host : Host} conclusions parsed :
  topic_of conclusions parsed = derived_topic conclusions parsed.
Proof.
  unfold topic_of, derived_topic, declared_topic, slug_topic, Js.or_else, Js.opt_get.
  destruct conclusions; try reflexivity.
  destruct (Js.lookup "topic" props); reflexivity.
Qed.

(** C6, as the code has it.  In the summary and in the detail, the topic
    is the topic field the conclusions document declares when that field
    is present and truthy (for a string: not empty), and otherwise the
    slug with its hyphens replaced by spaces; the session
    [ANL-my-cool-topic-2026-03-01] without a conclusions file has the
    topic "my cool topic". *)
Theorem topic_is_truthy_declared_topic_or_slug {host : Host}
        (fs : filesystem) (analysisDir sessionId : string)
        (parsed : SessionIdentity) (conclusions : value) :
  parseSessionId sessionId = Some parsed ->
  readJsonFile fs (conclusionsPath analysisDir sessionId) = Normal conclusions ->
  (forall s, getSessionSummary fs analysisDir sessionId = Normal (Some s) ->
             Summary.topic s = derived_topic conclusions parsed) /\
  (forall d, getSessionDetail fs analysisDir sessionId = Normal (Some d) ->
             Detail.topic d = derived_topic conclusions parsed) /\
  (sessionId = "ANL-my-cool-topic-2026-03-01" ->
   existsSync fs (conclusionsPath analysisDir sessionId) = false ->
   derived_topic conclusions parsed = VString "my cool topic").
Proof.
  intros Hp Hc. rewrite readJsonFile_eq in Hc. injection Hc as <-.
  repeat split.
  - intros s. rewrite getSessionSummary_eq, Hp.
    destruct (fs (join analysisDir sessionId)) as [[?|?]|]; try discriminate.
    intros [= <-]. apply topic_of_derived.
  - intros d. rewrite getSessionDetail_eq, Hp.
    destruct (existsSync fs (join analysisDir sessionId)); [|discriminate].
    intros [= <-]. apply topic_of_derived.
  - intros -> He. unfold json_at. rewrite (readFile_missing _ _ He).
    vm_compute in Hp. injection Hp as <-. reflexivity.
Qed.

Lemma topic_is_truthy_declared_topic_or_slug_witness :
  let fs := Fixture.without_conclusions in
  let dir := Fixture.analysisDir in
  let id := "ANL-my-cool-topic-2026-03-01" in
  let parsed := {| slug := "my-cool-topic"; date := "2026-03-01" |} in
  parseSessionId id = Some parsed /\
  @readJsonFile Sample.host fs (@conclusionsPath Sample.host dir id) = Normal VNull /\
  (forall s, @getSessionSummary Sample.host fs dir id = Normal (Some s) ->
             Summary.topic s = VString "my cool topic") /\
  (forall d, @getSessionDetail Sample.host fs dir id = Normal (Some d) ->
             Detail.topic d = VString "my cool topic").
Proof.
  cbv zeta.
  assert (Hp : parseSessionId "ANL-my-cool-topic-2026-03-01"
               = Some {| slug := "my-cool-topic"; date := "2026-03-01" |})
    by reflexivity.
  assert (Hc : @readJsonFile Sample.host Fixture.without_conclusions
                 (@conclusionsPath Sample.host Fixture.analysisDir
                    "ANL-my-cool-topic-2026-03-01") = Normal VNull)
    by reflexivity.
  destruct (@topic_is_truthy_declared_topic_or_slug Sample.host _ _ _ _ _ Hp Hc)
    as (Hs & Hd & Hex).
  repeat split; assumption.
Defined.

(** The claim of C6 as written fails: a conclusions document that declares
    the topic [""] has the field present, and the topic is the slug's. *)
Lemma empty_declared_topic_falls_back_to_slug :
  let fs := Fixture.with_conclusions (Sample.doc "{'topic': ''}") in
  let dir := Fixture.analysisDir in
  let id := "ANL-my-cool-topic-2026-03-01" in
  exists conclusions s d,
    @readJsonFile Sample.host fs (@conclusionsPath Sample.host dir id) = Normal conclusions /\
    declared_topic conclusions = Some (VString "") /\
    @getSessionSummary Sample.host fs dir id = Normal (Some s) /\
    Summary.topic s = VString "my cool topic" /\
    @getSessionDetail Sample.host fs dir id = Normal (Some d) /\
    Detail.topic d = VString "my cool topic" /\
    Some (Summary.topic s) <> declared_topic conclusions /\
    Some (Detail.topic d) <> declared_topic conclusions.
Proof.
  cbv zeta. do 3 eexists.
  repeat split; try (vm_compute; reflexivity); vm_compute; discriminate.
Qed.

(** ** The list operation *)

Lemma listed_iff_session_folder {host : Host} fs analysisDir f :
  (exists s, listed fs analysisDir f = Some s) <-> is_session_folder fs analysisDir f.
Proof.
  unfold listed, is_session_folder, stat.
  destruct (parseSessionId f) as [parsed|];
    destruct (fs (join analysisDir f)) as [[?|?]|]; split;
    try (intros [s Hs]; discriminate);
    try (intros [H1 H2]; congruence).
  - intros _. split; [discriminate | reflexivity].
  - intros _. eauto.
Qed.

(** C2.  The claim: a failure while one session folder is processed
    leaves only that session out, and the list is still a success
    envelope with the remaining sessions.  The loop does skip a folder
    whose summary is [null], and the detail operation guards the very
    same path with [existsSync]; but [getSessionSummary] awaits [stat]
    without a guard.  For a listing that names [ANL-gone-2026-03-01], a
    folder that no longer resolves (removed after the enumeration, or a
    link whose target is gone), next to the sound session
    [ANL-alpha-2026-01-01], [stat] rejects, the rejection leaves the loop
    and the whole request is answered 500: no list is returned, the sound
    session included. *)
Theorem one_unreachable_folder_aborts_the_list :
  readdir Fixture.dangling_entry Fixture.analysisDir
    = Normal ["ANL-alpha-2026-01-01"; "ANL-gone-2026-03-01"] /\
  stat Fixture.dangling_entry (Fixture.at_ "ANL-gone-2026-03-01")
    = Throw "ENOENT: no such file or directory" /\
  @getSessionSummary Sample.host Fixture.dangling_entry Fixture.analysisDir
     "ANL-alpha-2026-01-01"
    = Normal (Some (Fixture.bare "ANL-alpha-2026-01-01" "alpha" "2026-01-01")) /\
  @getSessionSummary Sample.host Fixture.dangling_entry Fixture.analysisDir
     "ANL-gone-2026-03-01"
    = Throw "ENOENT: no such file or directory" /\
  @list_route Sample.host Fixture.list_request Fixture.dangling_entry
    = Normal (@json_response 500 (ErrorPayload "ENOENT: no such file or directory")) /\
  @getSessionDetail Sample.host Fixture.dangling_entry Fixture.analysisDir
     "ANL-gone-2026-03-01"
    = Normal None /\
  @detail_route Sample.host (Fixture.detail_request "ANL-gone-2026-03-01")
     Fixture.dangling_entry "ANL-gone-2026-03-01"
    = Normal (@json_response 404 (ErrorPayload "Session not found")).
Proof.
  repeat apply conj; vm_compute; reflexivity.
Qed.

(** A [stat] failure on one entry with a session name gives the
    internal-error outcome, whatever the other entries are. *)
Lemma list_stat_failure_is_internal_error {host : Host}
      (ctx : RouteContext) (fs : filesystem)
      (analysisDir : string) (folders : list string) (f : string) :
  analysisDir_of ctx = Normal analysisDir ->
  readdir fs analysisDir = Normal folders ->
  In f folders -> parseSessionId f <> None ->
  existsSync fs (join analysisDir f) = false ->
  list_route ctx fs =
  Normal (json_response 500 (ErrorPayload "ENOENT: no such file or directory")).
Proof.
  intros Hd Hr Hin Hp He.
  rewrite (list_route_enumerated _ _ _ _ Hd Hr).
  now rewrite (collect_sessions_stat_failure _ _ _ _ _ Hin Hp He).
Qed.

(** ** Order of the list *)

Section OrderFacts.
Context {host : Host}.

Lemma list_route_sorted_summaries ctx fs analysisDir folders sessions total :
  analysisDir_of ctx = Normal analysisDir ->
  readdir fs analysisDir = Normal folders ->
  list_route ctx fs = Normal (json_response 200 (ListPayload sessions total)) ->
  sessions = Array_sort by_date_descending (summaries fs analysisDir folders).
Proof.
  intros Hd Hr. rewrite (list_route_enumerated _ _ _ _ Hd Hr).
  destruct (collect_sessions fs analysisDir folders []) as [collected|m] eqn:Hc;
    [|discriminate].
  apply collect_sessions_inv in Hc. cbn [app] in Hc. subst collected.
  now intros [= <- _].
Qed.

Lemma summaries_date_shaped fs analysisDir folders s :
  In s (summaries fs analysisDir folders) ->
  date_shaped (Summary.createdAt s) = true.
Proof.
  intros Hs. apply in_summaries in Hs as (f & _ & Hl).
  apply listed_createdAt in Hl as (parsed & Hp & ->).
  now apply parseSessionId_iff in Hp.
Qed.

Lemma sorted_chronologically l :
  Forall (fun s => date_shaped (Summary.createdAt s) = true) l ->
  StronglySorted not_older l -> StronglySorted chronologically_not_older l.
Proof.
  intros Hall. induction 1 as [|a l Hs IH Ha]; constructor.
  - apply IH. now inversion Hall.
  - inversion Hall as [|? ? Hda Hdl]; subst.
    rewrite Forall_forall in *. intros b Hb.
    specialize (Ha b Hb). unfold not_older, chronologically_not_older in *.
    rewrite (compare_date_shaped _ _ (Hdl b Hb) Hda) in Ha.
    now apply Nat.compare_le_iff.
Qed.

Lemma by_date_descending_total a b :
  (by_date_descending a b <= 0)%Z \/ (by_date_descending b a <= 0)%Z.
Proof.
  unfold by_date_descending, localeCompare.
  rewrite (String.compare_antisym (Summary.createdAt b) (Summary.createdAt a)).
  destruct (String.compare (Summary.createdAt a) (Summary.createdAt b)); simpl; lia.
Qed.

Lemma summaries_ids_dated fs analysisDir d folders :
  map Summary.id
      (filter (fun s => String.eqb (Summary.createdAt s) d)
              (summaries fs analysisDir folders)) =
  filter (session_dated fs analysisDir d) folders.
Proof.
  induction folders as [|f folders IH]; [reflexivity|].
  rewrite summaries_cons, filter_app, map_app, IH. cbn [filter].
  unfold session_dated at 2.
  destruct (listed fs analysisDir f) as [s|] eqn:Hl; [|reflexivity].
  cbn [filter]. destruct (String.eqb (Summary.createdAt s) d); [|reflexivity].
  cbn [map app]. now rewrite (listed_id _ _ _ _ Hl).
Qed.

(** Three distinct dates have one descending arrangement. *)
Lemma three_dates_descending (l : list Summary.t) :
  StronglySorted not_older l ->
  Permutation (map Summary.createdAt l) ["2026-01-01"; "2026-02-15"; "2025-12-31"] ->
  map Summary.createdAt l = ["2026-02-15"; "2026-01-01"; "2025-12-31"].
Proof.
  intros Hs Hp.
  pose proof (Permutation_length Hp) as Hlen. rewrite length_map in Hlen.
  destruct l as [|a [|b [|c [|? ?]]]]; try discriminate.
  assert (Hnd : NoDup (map Summary.createdAt [a; b; c])).
  { apply (Permutation_NoDup (Permutation_sym Hp)).
    repeat constructor; simpl; intuition discriminate. }
  assert (Hin : forall x, In x (map Summary.createdAt [a; b; c]) ->
                          In x ["2026-01-01"; "2026-02-15"; "2025-12-31"])
    by (intros x; apply Permutation_in, Hp).
  cbn [map] in *.
  inversion Hs as [|? ? Hs' Ha]; subst.
  inversion Hs' as [|? ? _ Hb]; subst.
  inversion Ha as [|? ? Hab Ha']; subst. inversion Ha' as [|? ? Hac _]; subst.
  inversion Hb as [|? ? Hbc _]; subst.
  unfold not_older in *.
  inversion Hnd as [|? ? Hna Hnd']; subst. inversion Hnd' as [|? ? Hnb _]; subst.
  destruct (Hin (Summary.createdAt a)) as [Ea|[Ea|[Ea|[]]]]; [now left|..];
    destruct (Hin (Summary.createdAt b)) as [Eb|[Eb|[Eb|[]]]];
      try (right; now left);
    destruct (Hin (Summary.createdAt c)) as [Ec|[Ec|[Ec|[]]]];
      try (right; right; now left);
    rewrite <- Ea, <- Eb, <- Ec in *;
    try reflexivity; exfalso;
    solve [ apply Hna; simpl; auto
          | apply Hnb; simpl; auto
          | apply Hab; reflexivity
          | apply Hac; reflexivity
          | apply Hbc; reflexivity ].
Qed.

Lemma not_older_antisym (a b : Summary.t) :
  not_older a b -> not_older b a -> Summary.createdAt a = Summary.createdAt b.
Proof.
  unfold not_older. intros Hab Hba.
  rewrite (String.compare_antisym (Summary.createdAt b) (Summary.createdAt a)) in Hab.
  destruct (String.compare (Summary.createdAt a) (Summary.createdAt b)) eqn:Hc;
    cbn in Hab; try congruence.
  now apply String.compare_eq_iff.
Qed.

Lemma by_date_descending_zero (a b : Summary.t) :
  by_date_descending a b = 0%Z <-> Summary.createdAt a = Summary.createdAt b.
Proof.
  split; [|apply by_date_descending_same_date].
  unfold by_date_descending, localeCompare.
  destruct (String.compare (Summary.createdAt b) (Summary.createdAt a)) eqn:Hc;
    try discriminate.
  intros _. symmetry. now apply String.compare_eq_iff.
Qed.

(** Sessions of distinct dates have one descending arrangement. *)
Lemma descending_arrangement_unique (l l' : list Summary.t) :
  StronglySorted not_older l -> StronglySorted not_older l' ->
  Permutation l' l -> NoDup (map Summary.createdAt l) -> l' = l.
Proof.
  intros Hs. revert l'. induction Hs as [|a l Hs IH Ha]; intros l' Hs' Hp Hnd.
  - apply Permutation_sym in Hp. now apply Permutation_nil in Hp.
  - destruct l' as [|a' l'].
    + apply Permutation_nil in Hp. discriminate.
    + inversion Hs' as [|? ? Hs'' Ha']; subst.
      cbn [map] in Hnd. inversion Hnd as [|? ? Hna Hnd']; subst.
      rewrite Forall_forall in Ha, Ha'.
      assert (Heq : a' = a).
      { destruct (Permutation_in a' Hp (or_introl eq_refl)) as [E | Hin];
          [now symmetry|].
        destruct (Permutation_in a (Permutation_sym Hp) (or_introl eq_refl))
          as [E | Hin']; [exact E|].
        exfalso. apply Hna.
        rewrite (not_older_antisym a a' (Ha a' Hin) (Ha' a Hin')).
        now apply in_map. }
      subst a'. f_equal. apply IH; [exact Hs'' | | exact Hnd'].
      now apply Permutation_cons_inv in Hp.
Qed.

End OrderFacts.

(** C7, as the code has it.  The list holds the sessions of the
    enumerated folders sorted by [createdAt] descending, the most recent
    first, under a comparison that is total and that ranks two sessions
    as equal exactly when their [createdAt] are equal: there is no
    further tiebreak.  The order is therefore fixed by the sessions alone
    when no two of them share a [createdAt]: whatever the enumeration,
    the same sessions come back in the same order.  Three sessions dated
    2026-01-01, 2026-02-15 and 2025-12-31 come back in the order
    2026-02-15, 2026-01-01, 2025-12-31. *)
Theorem list_sorted_most_recent_first {host : Host}
        (ctx : RouteContext) (fs : filesystem) (analysisDir : string)
        (folders : list string) (sessions : list Summary.t) (total : nat) :
  analysisDir_of ctx = Normal analysisDir ->
  readdir fs analysisDir = Normal folders ->
  list_route ctx fs = Normal (json_response 200 (ListPayload sessions total)) ->
  Permutation sessions (summaries fs analysisDir folders) /\
  StronglySorted not_older sessions /\
  StronglySorted chronologically_not_older sessions /\
  (forall a b : Summary.t,
      (by_date_descending a b <= 0)%Z \/ (by_date_descending b a <= 0)%Z) /\
  (Permutation (map Summary.createdAt (summaries fs analysisDir folders))
               ["2026-01-01"; "2026-02-15"; "2025-12-31"] ->
   map Summary.createdAt sessions = ["2026-02-15"; "2026-01-01"; "2025-12-31"]) /\
  (forall a b : Summary.t,
      by_date_descending a b = 0%Z <-> Summary.createdAt a = Summary.createdAt b) /\
  (forall (fs' : filesystem) (folders' : list string)
          (sessions' : list Summary.t) (total' : nat),
      readdir fs' analysisDir = Normal folders' ->
      list_route ctx fs' = Normal (json_response 200 (ListPayload sessions' total')) ->
      Permutation sessions' sessions ->
      NoDup (map Summary.createdAt sessions) ->
      sessions' = sessions).
Proof.
  intros Hd Hr Hl.
  pose proof (list_route_sorted_summaries _ _ _ _ _ _ Hd Hr Hl) as ->.
  assert (Hperm : Permutation
                    (Array_sort by_date_descending (summaries fs analysisDir folders))
                    (summaries fs analysisDir folders))
    by apply Array_sort_perm.
  assert (Hsorted : StronglySorted not_older
                      (Array_sort by_date_descending (summaries fs analysisDir folders)))
    by apply Array_sort_by_date.
  split; [exact Hperm|]. split; [exact Hsorted|]. split; [|split; [|split; [|split]]].
  - apply sorted_chronologically; [|exact Hsorted].
    apply Forall_forall. intros s Hs.
    apply (summaries_date_shaped fs analysisDir folders).
    now apply (Permutation_in _ Hperm).
  - apply by_date_descending_total.
  - intros H3. apply three_dates_descending; [exact Hsorted|].
    now rewrite Hperm.
  - apply by_date_descending_zero.
  - intros fs' folders' sessions' total' Hr' Hl' Hp Hnd.
    pose proof (list_route_sorted_summaries _ _ _ _ _ _ Hd Hr' Hl') as E.
    apply descending_arrangement_unique; [exact Hsorted | | exact Hp | exact Hnd].
    rewrite E. apply Array_sort_by_date.
Qed.

Lemma list_sorted_most_recent_first_witness :
  @list_route Sample.host Fixture.list_request Fixture.three_dates =
    Normal (@json_response 200 (ListPayload Fixture.three_dates_listed 3)) /\
  map Summary.createdAt
      (@summaries Sample.host Fixture.three_dates Fixture.analysisDir
         ["ANL-alpha-2026-01-01"; "notes.txt"; "ANL-beta-2026-02-15";
          "ANL-gamma-2025-12-31"])
    = ["2026-01-01"; "2026-02-15"; "2025-12-31"] /\
  StronglySorted chronologically_not_older Fixture.three_dates_listed /\
  map Summary.createdAt Fixture.three_dates_listed
    = ["2026-02-15"; "2026-01-01"; "2025-12-31"] /\
  (forall sessions' total',
      @list_route Sample.host Fixture.list_request Fixture.three_dates_reordered
      = Normal (@json_response 200 (ListPayload sessions' total')) ->
      Permutation sessions' Fixture.three_dates_listed ->
      sessions' = Fixture.three_dates_listed).
Proof.
  assert (Hl : @list_route Sample.host Fixture.list_request Fixture.three_dates =
               Normal (@json_response 200 (ListPayload Fixture.three_dates_listed 3)))
    by (vm_compute; reflexivity).
  destruct (@list_sorted_most_recent_first Sample.host Fixture.list_request
              Fixture.three_dates Fixture.analysisDir
              ["ANL-alpha-2026-01-01"; "notes.txt"; "ANL-beta-2026-02-15";
               "ANL-gamma-2025-12-31"] _ 3 eq_refl eq_refl Hl)
    as (_ & _ & Hchrono & _ & Horder & _ & Hsame).
  split; [exact Hl|]. split; [vm_compute; reflexivity|].
  split; [exact Hchrono|].
  split; [apply Horder; vm_compute; apply Permutation_refl|].
  intros sessions' total' Hl' Hp.
  apply (Hsame Fixture.three_dates_reordered
               ["ANL-gamma-2025-12-31"; "ANL-beta-2026-02-15"; "notes.txt";
                "ANL-alpha-2026-01-01"] sessions' total' eq_refl Hl' Hp).
  repeat constructor; simpl; intuition discriminate.
Defined.

(** The claim of C7 as written, a deterministic order, fails on
    sessions of one date: two directories that hold the same three
    session folders and enumerate them in different orders are listed in
    different orders, each of them descending by [createdAt]. *)
Lemma same_sessions_are_listed_in_two_orders :
  let b := Fixture.bare "ANL-b-2026-01-01" "b" "2026-01-01" in
  let a := Fixture.bare "ANL-a-2026-01-01" "a" "2026-01-01" in
  let old := Fixture.bare "ANL-old-2025-01-01" "old" "2025-01-01" in
  @list_route Sample.host Fixture.list_request
    (Fixture.same_date "ANL-b-2026-01-01" "ANL-a-2026-01-01")
    = Normal (@json_response 200 (ListPayload [b; a; old] 3)) /\
  @list_route Sample.host Fixture.list_request
    (Fixture.same_date "ANL-a-2026-01-01" "ANL-b-2026-01-01")
    = Normal (@json_response 200 (ListPayload [a; b; old] 3)) /\
  Permutation [b; a; old] [a; b; old] /\
  StronglySorted not_older [b; a; old] /\
  StronglySorted not_older [a; b; old] /\
  [b; a; old] <> [a; b; old].
Proof.
  cbv zeta.
  split; [vm_compute; reflexivity|]. split; [vm_compute; reflexivity|].
  split; [apply perm_swap|].
  split; [|split].
  - repeat constructor; unfold not_older; vm_compute; discriminate.
  - repeat constructor; unfold not_older; vm_compute; discriminate.
  - discriminate.
Qed.

(** C10.  Sessions created on the same date appear in the list in the
    order in which their folders were enumerated: the comparison looks
    at the [createdAt] strings only and the sort is stable.  The
    tiebreak is therefore not the order of the folder names: two
    same-date folders come back as enumerated, whichever name is
    greater. *)
Theorem equal_dates_keep_enumeration_order {host : Host}
        (ctx : RouteContext) (fs : filesystem) (analysisDir : string)
        (folders : list string) (sessions : list Summary.t) (total : nat) :
  analysisDir_of ctx = Normal analysisDir ->
  readdir fs analysisDir = Normal folders ->
  list_route ctx fs = Normal (json_response 200 (ListPayload sessions total)) ->
  (forall d,
      map Summary.id
          (filter (fun s => String.eqb (Summary.createdAt s) d) sessions) =
      filter (session_dated fs analysisDir d) folders) /\
  (forall a b a' b' : Summary.t,
      Summary.createdAt a = Summary.createdAt a' ->
      Summary.createdAt b = Summary.createdAt b' ->
      by_date_descending a b = by_date_descending a' b') /\
  (exists listed_ba listed_ab,
      @list_route Sample.host Fixture.list_request
        (Fixture.same_date "ANL-b-2026-01-01" "ANL-a-2026-01-01")
        = Normal (@json_response 200 (ListPayload listed_ba 3)) /\
      map Summary.id listed_ba =
        ["ANL-b-2026-01-01"; "ANL-a-2026-01-01"; "ANL-old-2025-01-01"] /\
      @list_route Sample.host Fixture.list_request
        (Fixture.same_date "ANL-a-2026-01-01" "ANL-b-2026-01-01")
        = Normal (@json_response 200 (ListPayload listed_ab 3)) /\
      map Summary.id listed_ab =
        ["ANL-a-2026-01-01"; "ANL-b-2026-01-01"; "ANL-old-2025-01-01"]).
Proof.
  intros Hd Hr Hl.
  pose proof (list_route_sorted_summaries _ _ _ _ _ _ Hd Hr Hl) as ->.
  repeat split.
  - intros d.
    rewrite (Array_sort_stable _ by_date_descending Summary.createdAt
               by_date_descending_same_date).
    apply summaries_ids_dated.
  - intros a b a' b' Ha Hb. unfold by_date_descending. now rewrite Ha, Hb.
  - do 2 eexists. repeat split; vm_compute; reflexivity.
Qed.

Lemma equal_dates_keep_enumeration_order_witness :
  let fs := Fixture.same_date "ANL-b-2026-01-01" "ANL-a-2026-01-01" in
  @list_route Sample.host Fixture.list_request fs =
    Normal (@json_response 200 (ListPayload Fixture.same_date_listed 3)) /\
  map Summary.id
      (filter (fun s => String.eqb (Summary.createdAt s) "2026-01-01")
              Fixture.same_date_listed) =
  ["ANL-b-2026-01-01"; "ANL-a-2026-01-01"].
Proof.
  cbv zeta.
  assert (Hl : @list_route Sample.host Fixture.list_request
                 (Fixture.same_date "ANL-b-2026-01-01" "ANL-a-2026-01-01") =
               Normal (@json_response 200 (ListPayload Fixture.same_date_listed 3)))
    by (vm_compute; reflexivity).
  split; [exact Hl|].
  rewrite (proj1 (@equal_dates_keep_enumeration_order Sample.host
                    Fixture.list_request
                    (Fixture.same_date "ANL-b-2026-01-01" "ANL-a-2026-01-01")
                    Fixture.analysisDir
                    ["ANL-b-2026-01-01"; "ANL-old-2025-01-01"; "ANL-a-2026-01-01"]
                    _ 3 eq_refl eq_refl Hl) "2026-01-01").
  reflexivity.
Defined.

(** ** The identity parser *)

Lemma substring_suffix a b :
  String.substring (String.length a) (String.length b) (a ++ b)%string = b.
Proof.
  induction a as [|c a IH]; simpl; [apply RegexFacts.substring_0_all | exact IH].
Qed.

(** C5, as the code has it.  [parseSessionId] returns an identity exactly
    for the names made of the prefix [ANL], a hyphen, a non-empty slug
    without line terminators (it may contain hyphens and date-like
    parts), a hyphen, and a final token of exactly [YYYY-MM-DD] digits,
    with nothing before or after; the date is the last ten characters of
    the name and the slug all that lies between the prefix and it, so
    that the last date-shaped token wins; every other name gives [None],
    and no name gives an error. *)
Theorem parseSessionId_accepts_exactly_session_names (name : string) (id : SessionIdentity) :
  (parseSessionId name = Some id <->
   name = ("ANL-" ++ slug id ++ "-" ++ date id)%string /\
   slug id <> EmptyString /\
   no_line_terminator (slug id) = true /\
   date_shaped (date id) = true) /\
  (parseSessionId name = Some id ->
   String.substring (String.length name - 10) 10 name = date id /\
   String.substring 4 (String.length name - 15) name = slug id) /\
  ((forall sl d, name = ("ANL-" ++ sl ++ "-" ++ d)%string -> sl <> EmptyString ->
                 no_line_terminator sl = true -> date_shaped d = true -> False) ->
   parseSessionId name = None) /\
  parseSessionId "ANL-a-2020-01-01-b-2021-02-02" =
    Some {| slug := "a-2020-01-01-b"; date := "2021-02-02" |}.
Proof.
  split; [apply parseSessionId_iff|]. split; [|split].
  3: reflexivity.
  - intros H. apply parseSessionId_iff in H as (-> & _ & _ & Hd).
    pose proof (RegexFacts.date_shaped_length _ Hd) as Hlen.
    split.
    + replace (String.length ("ANL-" ++ slug id ++ "-" ++ date id)%string - 10)
        with (String.length ("ANL-" ++ slug id ++ "-")%string)
        by (rewrite !RegexFacts.length_append; simpl; lia).
      rewrite <- Hlen.
      replace ("ANL-" ++ slug id ++ "-" ++ date id)%string
        with (("ANL-" ++ slug id ++ "-") ++ date id)%string.
      * apply substring_suffix.
      * simpl. f_equal. f_equal. f_equal. f_equal.
        induction (slug id) as [|c s IH]; simpl; congruence.
    + replace (String.length ("ANL-" ++ slug id ++ "-" ++ date id)%string - 15)
        with (String.length (slug id))
        by (rewrite !RegexFacts.length_append; simpl; lia).
      simpl. apply RegexFacts.substring_0_append.
  - intros Hnone. destruct (parseSessionId name) as [[sl d]|] eqn:Hp; [|reflexivity].
    apply parseSessionId_iff in Hp as (H1 & H2 & H3 & H4). cbn in *.
    exfalso. eapply Hnone; eauto.
Qed.

Lemma parseSessionId_accepts_exactly_session_names_witness :
  parseSessionId "ANL-my-cool-topic-2026-03-01" =
    Some {| slug := "my-cool-topic"; date := "2026-03-01" |} /\
  String.substring (String.length "ANL-my-cool-topic-2026-03-01" - 10) 10
                   "ANL-my-cool-topic-2026-03-01" = "2026-03-01".
Proof.
  pose proof (@parseSessionId_accepts_exactly_session_names
                "ANL-my-cool-topic-2026-03-01"
                {| slug := "my-cool-topic"; date := "2026-03-01" |})
    as (Hiff & Hlast & _).
  assert (Hp : parseSessionId "ANL-my-cool-topic-2026-03-01" =
               Some {| slug := "my-cool-topic"; date := "2026-03-01" |}).
  { apply Hiff. cbn [slug date]. split; [reflexivity|].
    split; [discriminate|]. split; reflexivity. }
  split; [exact Hp | exact (proj1 (Hlast Hp))].
Defined.

(** The claim of C5 as written fails: a name of the stated shape whose
    slug holds a line feed is not a session name. *)
Lemma parseSessionId_rejects_line_feed_in_slug :
  let sl := ("a" ++ String "010" "b")%string in
  let d := "2026-03-01" in
  sl <> EmptyString /\ date_shaped d = true /\
  parseSessionId ("ANL-" ++ sl ++ "-" ++ d)%string = None.
Proof.
  cbv zeta. split; [discriminate|]. split; reflexivity.
Qed.

Section RendererFacts.
Import Card Rendered.
Context {utils : Utils}.

Lemma prefix_iff p s :
  String.prefix p s = true <-> exists rest, s = (p ++ rest)%string.
Proof.
  revert s; induction p as [|a p IH]; intros s.
  - destruct s; simpl; split; eauto.
  - destruct s as [|b s]; simpl.
    + split; [discriminate | intros [rest H]; discriminate].
    + destruct (Ascii.ascii_dec a b) as [<-|Hab].
      * rewrite IH. split; intros [rest H]; exists rest; congruence.
      * split; [discriminate | intros [rest H]; congruence].
Qed.

Lemma startsWith_url s :
  startsWith s "http://" || startsWith s "https://" = true <-> url_prefixed s.
Proof.
  unfold startsWith, url_prefixed. rewrite orb_true_iff, !prefix_iff.
  split.
  - intros [[rest H]|[rest H]]; exists rest; auto.
  - intros [rest [H|H]]; [left | right]; exists rest; auto.
Qed.

Lemma mapi_ignoring_index {A B : Type} (f : A -> B) (items : list A) : forall start,
  mapi (fun _ item => f item) start items = map f items.
Proof. induction items as [|x items IH]; intros start; simpl; [|rewrite IH]; reflexivity. Qed.

Lemma mapi_length {A B : Type} (f : nat -> A -> B) (items : list A) : forall start,
  List.length (mapi f start items) = List.length items.
Proof. induction items as [|x items IH]; intros start; simpl; [|rewrite IH]; reflexivity. Qed.

Lemma mapi_nth {A B : Type} (f : nat -> A -> B) (items : list A) : forall start i x,
  nth_error items i = Some x ->
  nth_error (mapi f start items) i = Some (f (start + i) x).
Proof.
  induction items as [|y items IH]; intros start [|i] x H; simpl in *;
    try discriminate.
  - injection H as ->. now rewrite Nat.add_0_r.
  - rewrite (IH (S start) i x H). do 2 f_equal. lia.
Qed.

Lemma all_primitives_iff items :
  forallb (fun item => negb (typeof_object item)
                       || match item with VNull => true | _ => false end) items
  = forallb primitive items.
Proof.
  induction items as [|v items IH]; simpl; [reflexivity|].
  rewrite IH. now destruct v.
Qed.
(** The two type tests, and what is left for the primitive renderer. *)
Lemma isObject_iff v : isObject v = true <-> exists data, v = VObject data.
Proof. destruct v; simpl; split; try discriminate; eauto; intros [? [=]]. Qed.

Lemma isArray_iff v : isArray v = true <-> exists items, v = VArray items.
Proof. destruct v; simpl; split; try discriminate; eauto; intros [? [=]]. Qed.

Lemma element_view_isObject item :
  element_view item =
  if isObject item
  then ObjectView (match item with VObject data => data | _ => [] end) 0
  else PrimitiveValue item.
Proof. destruct item; reflexivity. Qed.

Lemma primitive_iff v : primitive v = negb (isObject v || isArray v).
Proof. destruct v; reflexivity. Qed.

(** An entry that is an array is printed by [String]. *)
Lemma element_view_array items :
  element_view (VArray items) = Elem "span" [] [Text (Js.String_ (VArray items))].
Proof. reflexivity. Qed.

Lemma ArrayView_empty expanded :
  ArrayView expanded [] =
  Elem "div" [className "text-muted-foreground italic text-sm"] [Text "Empty list"].
Proof. reflexivity. Qed.

Lemma ArrayView_primitives expanded items :
  items <> [] -> forallb primitive items = true ->
  ArrayView expanded items =
  Elem "div" [className "flex flex-wrap gap-1.5"]
       (map (fun item => compact_badge (Js.String_ item)) items).
Proof.
  intros Hne Hp. unfold ArrayView, ArrayView_over.
  destruct items as [|v items]; [congruence|].
  cbn [List.length Nat.eqb]. rewrite all_primitives_iff, Hp.
  now rewrite mapi_ignoring_index.
Qed.

Lemma ArrayView_indexed items :
  forallb primitive items = false ->
  exists toggle,
    ArrayView true items =
    Elem "div" [className "space-y-2"]
         [toggle;
          Elem "div" [className "space-y-2 pl-4 border-l-2 border-border"]
               (mapi indexed_card 0 items)] /\
    prop_of "onClick" toggle = Some (ASetExpanded false) /\
    ArrayView false items = Elem "div" [className "space-y-2"]
                                 [Elem "button"
                                    [("onClick", ASetExpanded true);
                                     className "flex items-center gap-1 text-sm text-muted-foreground hover:text-foreground"]
                                    [Elem "ChevronRight" [className "w-4 h-4"] [];
                                     Num (Z.of_nat (List.length items)); Text " items"]].
Proof.
  intros Hp. unfold ArrayView, ArrayView_over.
  destruct items as [|v items]; [discriminate|].
  cbn [List.length Nat.eqb]. rewrite all_primitives_iff, Hp.
  eexists. split; [reflexivity|]. split; reflexivity.
Qed.

End RendererFacts.

(** ** Rendering of primitives and arrays *)

(** C8.  A primitive value renders as follows: [null] or [undefined] as
    an explicit empty marker; a boolean as a badge with two states; a
    number verbatim; a string starting with [http://] or [https://] as a
    link; any other string longer than 100 characters as a pre-wrapped
    block; every other string inline.  So ["https://example.com"] is a
    link, 150 repetitions of a character a pre-wrapped block, [42] a
    plain number and [null] the empty marker. *)
Theorem primitive_value_classification :
  (forall v, v = VNull \/ v = VUndefined ->
             Rendered.empty_marker (Card.PrimitiveValue v)) /\
  (forall b, Rendered.boolean_badge b (Card.PrimitiveValue (VBool b))) /\
  Card.PrimitiveValue (VBool true) <> Card.PrimitiveValue (VBool false) /\
  (forall n, Rendered.verbatim_number n (Card.PrimitiveValue (VNumber n))) /\
  (forall s, Rendered.url_prefixed s ->
             Rendered.link_to s (Card.PrimitiveValue (VString s))) /\
  (forall s, ~ Rendered.url_prefixed s -> 100 < String.length s ->
             Rendered.pre_wrapped_block s (Card.PrimitiveValue (VString s))) /\
  (forall s, ~ Rendered.url_prefixed s -> String.length s <= 100 ->
             Rendered.inline_text s (Card.PrimitiveValue (VString s))) /\
  Rendered.link_to "https://example.com" (Card.PrimitiveValue (VString "https://example.com")) /\
  (forall c, Rendered.pre_wrapped_block (Rendered.repeat_char c 150)
               (Card.PrimitiveValue (VString (Rendered.repeat_char c 150)))) /\
  Rendered.verbatim_number 42 (Card.PrimitiveValue (VNumber 42)) /\
  Rendered.empty_marker (Card.PrimitiveValue VNull).
Proof.
  assert (Hurl : forall s, Rendered.url_prefixed s ->
                           Rendered.link_to s (Card.PrimitiveValue (VString s))).
  { intros s Hs. apply startsWith_url in Hs. unfold Card.PrimitiveValue.
    rewrite Hs. repeat split. }
  assert (Hlong : forall s, ~ Rendered.url_prefixed s -> 100 < String.length s ->
                  Rendered.pre_wrapped_block s (Card.PrimitiveValue (VString s))).
  { intros s Hs Hl. unfold Card.PrimitiveValue.
    destruct (Card.startsWith s "http://" || Card.startsWith s "https://") eqn:E;
      [apply startsWith_url in E; contradiction|].
    apply Nat.ltb_lt in Hl. rewrite Hl. repeat split. }
  assert (Hinline : forall s, ~ Rendered.url_prefixed s -> String.length s <= 100 ->
                    Rendered.inline_text s (Card.PrimitiveValue (VString s))).
  { intros s Hs Hl. unfold Card.PrimitiveValue.
    destruct (Card.startsWith s "http://" || Card.startsWith s "https://") eqn:E;
      [apply startsWith_url in E; contradiction|].
    replace (Nat.ltb 100 (String.length s)) with false
      by (symmetry; apply Nat.ltb_ge; exact Hl).
    repeat split. }
  split; [intros v [->| ->]; repeat split|].
  split; [intros [|]; repeat split|].
  split; [discriminate|].
  split; [intros n; repeat split|].
  split; [exact Hurl|]. split; [exact Hlong|]. split; [exact Hinline|].
  split; [apply Hurl; exists "example.com"; now right|].
  split; [|split; repeat split].
  intros c. apply Hlong.
  - intros [rest [H|H]]; simpl in H; injection H as H1 H2; congruence.
  - cbv. repeat constructor.
Qed.

Lemma primitive_value_classification_witness :
  Rendered.link_to "http://localhost/report"
                (Card.PrimitiveValue (VString "http://localhost/report")) /\
  Rendered.inline_text "done" (Card.PrimitiveValue (VString "done")).
Proof.
  destruct primitive_value_classification
    as (_ & _ & _ & _ & Hurl & _ & Hinline & _).
  split.
  - apply Hurl. exists "localhost/report". now left.
  - apply Hinline.
    + intros [rest [H|H]]; discriminate.
    + cbv. repeat constructor.
Defined.

(** C9.  The claim: in a list that is not all primitives, each element
    that is not a primitive recurses into object or array rendering.  An
    element that is itself an array is instead handed to the primitive
    renderer, which prints it with [String]: inside a list, [[1, 2]]
    shows as the text [1,2], not as the badges that array rendering
    gives and that a field holding the same array gets. *)
Theorem array_inside_array_is_rendered_as_text {utils : Utils} :
  let nested := VArray [VNumber 1; VNumber 2] in
  let as_array :=
    Elem "div" [Card.className "flex flex-wrap gap-1.5"]
         [Rendered.compact_badge "1"; Rendered.compact_badge "2"] in
  Rendered.primitive nested = false /\
  Card.ArrayView true [VNumber 1; VNumber 2] = as_array /\
  Rendered.children_of (Card.CardItem "tags" nested 0) =
    [Elem "div" [Card.className "font-medium text-sm text-foreground"] [Text "Tags"];
     as_array] /\
  nth_error
    (Rendered.children_of
       (nth 1 (Rendered.children_of (Card.ArrayView true [nested])) (Text ""))) 0 =
    Some (Elem "Card" [Card.className "p-3"]
               [Elem "div" [Card.className "text-xs text-muted-foreground mb-2"]
                     [Text "#"; Num 1];
                Elem "span" [] [Text "1,2"]]) /\
  Elem "span" [] [Text "1,2"] <> as_array.
Proof.
  cbv zeta. repeat apply conj; try reflexivity. discriminate.
Qed.

(** What array rendering does establish: the empty-list marker, compact
    badges in the original order for a list of primitives, and otherwise
    a list that starts expanded, numbers its entries from 1, and renders
    an object entry with [ObjectView] and every other entry with
    [PrimitiveValue]. *)
Lemma array_view_shapes {utils : Utils} :
  (forall expanded,
      Card.ArrayView expanded [] =
      Elem "div" [Card.className "text-muted-foreground italic text-sm"]
           [Text "Empty list"]) /\
  (forall expanded items,
      items <> [] -> forallb Rendered.primitive items = true ->
      Card.ArrayView expanded items =
      Elem "div" [Card.className "flex flex-wrap gap-1.5"]
           (map (fun item => Rendered.compact_badge (Js.String_ item)) items)) /\
  (forall items i item,
      forallb Rendered.primitive items = false ->
      nth_error items i = Some item ->
      nth_error
        (Rendered.children_of (nth 1 (Rendered.children_of (Card.ArrayView true items)) (Text "")))
        i = Some (Rendered.indexed_card i item)) /\
  Card.ArrayView true [VNumber 1; VNumber 2; VNumber 3] =
    Elem "div" [Card.className "flex flex-wrap gap-1.5"]
         [Rendered.compact_badge "1"; Rendered.compact_badge "2"; Rendered.compact_badge "3"] /\
  (let items := [VObject [("a", VNumber 1)]; VObject [("a", VNumber 2)]] in
   Rendered.children_of (nth 1 (Rendered.children_of (Card.ArrayView true items)) (Text "")) =
   [Rendered.indexed_card 0 (VObject [("a", VNumber 1)]);
    Rendered.indexed_card 1 (VObject [("a", VNumber 2)])]).
Proof.
  repeat apply conj; try reflexivity.
  - intros expanded items. apply ArrayView_primitives.
  - intros items i item Hp Hi.
    destruct (ArrayView_indexed items Hp) as (toggle & -> & _).
    cbn [Rendered.children_of nth]. now apply (mapi_nth Rendered.indexed_card items 0 i item).
Qed.

(** ** Routing of requests *)

Section RoutingFacts.
Import Regex RegexFacts Routing.
Context {host : Host}.

Lemma plus_loop_one p k fuel s pos caps :
  String.length s < fuel ->
  plus_loop (one p) k fuel pos s caps = greedy_class p k s pos caps.
Proof.
  revert s pos; induction fuel as [|fuel IH]; intros s pos Hf; [lia|].
  destruct s as [|c s]; [reflexivity|].
  cbn [plus_loop greedy_class]. unfold one at 1.
  destruct (p c); [|reflexivity].
  replace (Nat.ltb pos (S pos)) with true by (symmetry; apply Nat.ltb_lt; lia).
  rewrite IH by (cbn [String.length] in Hf; lia). reflexivity.
Qed.

Lemma greedy_class_at_end p s0 p0 caps : forall s pre,
  s0 = (pre ++ s)%string ->
  greedy_class p (at_end s0 p0) s (p0 + String.length pre) caps =
  if negb (String.eqb s EmptyString) && all_in p s
  then Some (p0 + String.length s0, EmptyString, caps ++ [s0])
  else None.
Proof.
  induction s as [|c s IH]; intros pre Hs0; [reflexivity|].
  cbn [greedy_class all_in]. change (String.eqb (String c s) EmptyString) with false.
  cbn [negb andb]. destruct (p c); [|reflexivity]. cbn [andb].
  assert (Hs0' : s0 = ((pre ++ String c EmptyString) ++ s)%string)
    by (rewrite Hs0; apply append_assoc_char).
  assert (Hpos : S (p0 + String.length pre)
                 = p0 + String.length (pre ++ String c EmptyString)%string)
    by (rewrite length_append; simpl; lia).
  rewrite Hpos, (IH _ Hs0').
  destruct s as [|d s].
  - assert (Hlen : String.length s0 = S (String.length pre)).
    { rewrite Hs0, length_append. cbn [String.length]. lia. }
    cbn [String.eqb negb andb all_in]. unfold at_end. cbn [run].
    rewrite <- Hpos.
    replace (S (p0 + String.length pre) - p0) with (String.length s0) by lia.
    rewrite substring_0_all. unfold final.
    replace (S (p0 + String.length pre)) with (p0 + String.length s0) by lia.
    reflexivity.
  - change (String.eqb (String d s) EmptyString) with false. cbn [negb andb].
    destruct (all_in p (String d s)); reflexivity.
Qed.

(** The detail pattern, in closed form: the path after the prefix, when
    it is one segment. *)
Lemma str_match_detail_pattern path :
  str_match path detail_pattern =
  match strip_prefix "/api/analysis/" path with
  | Some rest => if segment rest then Some [path; rest] else None
  | None => None
  end.
Proof.
  unfold detail_pattern. rewrite str_match_Bol, run_Cat, run_Lit by discriminate.
  destruct (strip_prefix "/api/analysis/" path) as [rest|] eqn:Hp; [|reflexivity].
  apply strip_prefix_Some in Hp.
  rewrite run_Cat, run_Group. cbn [run].
  rewrite plus_loop_one by lia.
  match goal with
  | |- context [greedy_class ?p ?k rest ?n []] =>
      change (greedy_class p k rest n [])
        with (greedy_class p (at_end rest 14) rest 14 [])
  end.
  pose proof (greedy_class_at_end (fun a => negb (Ascii.eqb "/" a)) rest 14 []
                rest EmptyString eq_refl) as G.
  cbn [String.length] in G. rewrite Nat.add_0_r in G. rewrite G.
  unfold segment.
  destruct (negb (String.eqb rest EmptyString)
            && all_in (fun a => negb (Ascii.eqb "/" a)) rest); [|reflexivity].
  cbn [app]. do 2 f_equal.
  replace (14 + String.length rest - 0) with (String.length path)
    by (rewrite Hp, length_append; simpl; lia).
  apply substring_0_all.
Qed.

End RoutingFacts.

(** ** Outcomes of the two routes *)

Section RouteOutcomes.
Import Routing.
Context {host : Host}.

Lemma list_route_outcome ctx fs :
  (exists sessions,
      list_route ctx fs =
      Normal (json_response 200 (ListPayload sessions (List.length sessions)))) \/
  (exists message,
      list_route ctx fs = Normal (json_response 500 (ErrorPayload message))).
Proof.
  unfold list_route.
  destruct (analysisDir_of ctx) as [analysisDir|m]; cbn [bind try_catch];
    [|right; eexists; reflexivity].
  destruct (existsSync fs analysisDir); cbn [negb];
    [|left; exists []; reflexivity].
  destruct (readdir fs analysisDir) as [folders|m]; cbn [bind try_catch];
    [|right; eexists; reflexivity].
  destruct (collect_sessions fs analysisDir folders []) as [collected|m];
    cbn [bind try_catch]; [left | right]; eexists; reflexivity.
Qed.

Lemma detail_route_outcome ctx fs encodedId :
  (exists d, detail_route ctx fs encodedId =
             Normal (json_response 200 (DetailPayload d))) \/
  detail_route ctx fs encodedId =
    Normal (json_response 404 (ErrorPayload "Session not found")) \/
  (exists message,
      detail_route ctx fs encodedId =
      Normal (json_response 500 (ErrorPayload message))).
Proof.
  unfold detail_route.
  destruct (decodeURIComponent encodedId) as [sessionId|m]; cbn [bind try_catch];
    [|right; right; eexists; reflexivity].
  destruct (analysisDir_of ctx) as [analysisDir|m]; cbn [bind try_catch];
    [|right; right; eexists; reflexivity].
  rewrite getSessionDetail_eq.
  destruct (parseSessionId sessionId) as [parsed|]; cbn [bind try_catch];
    [|right; left; reflexivity].
  destruct (existsSync fs (join analysisDir sessionId)); cbn [bind try_catch];
    [left; eexists; reflexivity | right; left; reflexivity].
Qed.

Lemma handleAnalysisRoutes_by_route ctx fs :
  handleAnalysisRoutes ctx fs =
  match route_of ctx with
  | ListRoute => r <- list_route ctx fs ;; Normal (Some r)
  | DetailRoute encodedId => r <- detail_route ctx fs encodedId ;; Normal (Some r)
  | NotHandled => Normal None
  end.
Proof.
  unfold handleAnalysisRoutes, route_of. rewrite str_match_detail_pattern.
  destruct (String.eqb_spec (pathname ctx) "/api/analysis") as [Hp|Hp];
    destruct (String.eqb (method ctx) "GET"); cbn [andb negb]; try reflexivity.
  - rewrite Hp. reflexivity.
  - destruct (strip_prefix "/api/analysis/" (pathname ctx)) as [rest|]; [|reflexivity].
    destruct (segment rest); reflexivity.
  - destruct (strip_prefix "/api/analysis/" (pathname ctx)) as [rest|]; [|reflexivity].
    destruct (segment rest); reflexivity.
Qed.

End RouteOutcomes.

(** X1.  Neither route lets an error escape: a list request is answered
    200 with the sessions and their count, or 500 with a message; a detail
    request is answered 200 with a record, 404 "Session not found", or 500
    with a message; and [handleAnalysisRoutes] itself always settles. *)
Theorem routes_always_answer {host : Host} (ctx : RouteContext) (fs : filesystem)
        (encodedId : string) :
  ((exists sessions,
       list_route ctx fs =
       Normal (json_response 200 (ListPayload sessions (List.length sessions)))) \/
   (exists message,
       list_route ctx fs = Normal (json_response 500 (ErrorPayload message)))) /\
  ((exists d, detail_route ctx fs encodedId =
              Normal (json_response 200 (DetailPayload d))) \/
   detail_route ctx fs encodedId =
     Normal (json_response 404 (ErrorPayload "Session not found")) \/
   (exists message,
       detail_route ctx fs encodedId =
       Normal (json_response 500 (ErrorPayload message)))) /\
  (exists handled, handleAnalysisRoutes ctx fs = Normal handled).
Proof.
  split; [apply list_route_outcome|]. split; [apply detail_route_outcome|].
  rewrite handleAnalysisRoutes_by_route.
  destruct (Routing.route_of ctx) as [|seg|].
  - destruct (list_route_outcome ctx fs) as [[x ->]|[x ->]]; eexists; reflexivity.
  - destruct (detail_route_outcome ctx fs seg) as [[x ->]|[->|[x ->]]];
      eexists; reflexivity.
  - eexists; reflexivity.
Qed.

(** X2.  A request is handled exactly when its method is GET and its path
    is [/api/analysis] (the list) or [/api/analysis/] followed by one
    non-empty segment without a slash (the detail of that segment); every
    other request is declined, [false] being returned and nothing
    answered. *)
Theorem handled_exactly_the_two_routes {host : Host}
        (ctx : RouteContext) (fs : filesystem) :
  handleAnalysisRoutes ctx fs =
    match Routing.route_of ctx with
    | Routing.ListRoute => bind (list_route ctx fs) (fun r => Normal (Some r))
    | Routing.DetailRoute encodedId =>
        bind (detail_route ctx fs encodedId) (fun r => Normal (Some r))
    | Routing.NotHandled => Normal None
    end /\
  (handleAnalysisRoutes ctx fs = Normal None <->
   Routing.route_of ctx = Routing.NotHandled) /\
  (Routing.route_of ctx = Routing.NotHandled <->
   method ctx <> "GET" \/
   (pathname ctx <> "/api/analysis" /\
    forall encodedId, Routing.segment encodedId = true ->
                      pathname ctx <> ("/api/analysis/" ++ encodedId)%string)).
Proof.
  split; [apply handleAnalysisRoutes_by_route|]. split.
  - rewrite handleAnalysisRoutes_by_route.
    destruct (Routing.route_of ctx) as [|seg|].
    + destruct (list_route_outcome ctx fs) as [[x ->]|[x ->]];
        split; discriminate.
    + destruct (detail_route_outcome ctx fs seg) as [[x ->]|[->|[x ->]]];
        split; discriminate.
    + split; reflexivity.
  - unfold Routing.route_of.
    destruct (String.eqb_spec (method ctx) "GET") as [Hm|Hm]; cbn [negb].
    + destruct (String.eqb_spec (pathname ctx) "/api/analysis") as [Hp|Hp].
      * split; [discriminate|]. intros [H|[H _]]; contradiction.
      * destruct (strip_prefix "/api/analysis/" (pathname ctx)) as [rest|] eqn:Hs.
        -- apply strip_prefix_Some in Hs.
           destruct (Routing.segment rest) eqn:Hseg.
           ++ split; [discriminate|].
              intros [H|[_ H]]; [contradiction|]. now apply (H rest) in Hseg.
           ++ split; [|reflexivity]. intros _. right. split; [exact Hp|].
              intros e He Heq. rewrite Hs in Heq.
              injection Heq as Heq. congruence.
        -- split; [|reflexivity]. intros _. right. split; [exact Hp|].
           intros e He Heq.
           assert (strip_prefix "/api/analysis/" (pathname ctx) = Some e)
             by (apply strip_prefix_Some; exact Heq).
           congruence.
    + split; [|reflexivity]. intros _. now left.
Qed.

(** X3.  A project without an analysis directory lists as the empty
    success, exactly as one whose directory is empty; a path that is a
    regular file, or a directory that cannot be enumerated, is an internal
    error with the message of the failure. *)
Theorem missing_directory_lists_as_empty {host : Host}
        (ctx : RouteContext) (fs : filesystem) (analysisDir : string) :
  analysisDir_of ctx = Normal analysisDir ->
  (fs analysisDir = None \/ fs analysisDir = Some (Directory (Normal [])) ->
   list_route ctx fs = Normal (json_response 200 (ListPayload [] 0))) /\
  (forall content, fs analysisDir = Some (File content) ->
     exists message,
       list_route ctx fs = Normal (json_response 500 (ErrorPayload message))) /\
  (forall message, fs analysisDir = Some (Directory (Throw message)) ->
     list_route ctx fs = Normal (json_response 500 (ErrorPayload message))).
Proof.
  intros Hd. unfold list_route, existsSync, readdir. rewrite Hd. cbn [bind].
  repeat split.
  - intros [-> | ->]; reflexivity.
  - intros content ->. eexists. reflexivity.
  - intros message ->. reflexivity.
Qed.

Lemma missing_directory_lists_as_empty_witness :
  @list_route Sample.host Fixture.list_request (Sample.tree []) =
    Normal (@json_response 200 (ListPayload [] 0)) /\
  exists message,
    @list_route Sample.host Fixture.list_request
      (Sample.tree [(Fixture.analysisDir, Sample.file "not a directory")]) =
    Normal (@json_response 500 (ErrorPayload message)).
Proof.
  split.
  - apply (@missing_directory_lists_as_empty Sample.host Fixture.list_request
             (Sample.tree []) Fixture.analysisDir eq_refl).
    left. reflexivity.
  - apply (proj1 (proj2 (@missing_directory_lists_as_empty Sample.host
             Fixture.list_request
             (Sample.tree [(Fixture.analysisDir, Sample.file "not a directory")])
             Fixture.analysisDir eq_refl)) (Normal "not a directory")).
    reflexivity.
Defined.

(** ** Invariants of the listed sessions *)

Section ListInvariants.
Context {host : Host}.

Lemma slug_topic_truthy parsed folderName :
  parseSessionId folderName = Some parsed -> Js.truthy (slug_topic parsed) = true.
Proof.
  intros H. apply parseSessionId_iff in H as (_ & Hne & _).
  unfold slug_topic. cbn [Js.truthy].
  destruct (slug parsed) as [|c sl]; [congruence | reflexivity].
Qed.

Lemma derived_topic_truthy conclusions parsed folderName :
  parseSessionId folderName = Some parsed ->
  Js.truthy (derived_topic conclusions parsed) = true.
Proof.
  intros H. unfold derived_topic.
  destruct (declared_topic conclusions) as [t|];
    [destruct (Js.truthy t) eqn:Ht; [exact Ht|]|];
    eapply slug_topic_truthy; eassumption.
Qed.

Lemma summaries_ids fs analysisDir folders :
  map Summary.id (summaries fs analysisDir folders) =
  filter (fun f => match listed fs analysisDir f with
                   | Some _ => true
                   | None => false
                   end) folders.
Proof.
  induction folders as [|f folders IH]; [reflexivity|].
  rewrite summaries_cons, map_app, IH. cbn [filter].
  destruct (listed fs analysisDir f) as [s|] eqn:Hl; [|reflexivity].
  cbn [map app]. now rewrite (listed_id _ _ _ _ Hl).
Qed.

Lemma NoDup_filter {A : Type} (f : A -> bool) (l : list A) :
  NoDup l -> NoDup (filter f l).
Proof.
  induction 1 as [|x l Hx Hl IH]; cbn [filter]; [constructor|].
  destruct (f x); [|exact IH].
  constructor; [|exact IH]. intros Hin. apply filter_In in Hin. tauto.
Qed.

End ListInvariants.

(** X4.  Every session of a successful list has its folder name as [id]
    and as [name], a name that parses as a session identity whose date is
    its [createdAt]; its status is [completed] exactly when
    [hasConclusions] is set; its topic is truthy; and [total] is the
    number of sessions. *)
Theorem listed_sessions_are_well_formed {host : Host}
        (ctx : RouteContext) (fs : filesystem)
        (sessions : list Summary.t) (total : nat) :
  list_route ctx fs = Normal (json_response 200 (ListPayload sessions total)) ->
  total = List.length sessions /\
  Forall (fun s =>
            Summary.name s = Summary.id s /\
            (exists parsed, parseSessionId (Summary.id s) = Some parsed /\
                            Summary.createdAt s = date parsed) /\
            (Summary.status s = completed <-> Summary.hasConclusions s = true) /\
            Js.truthy (Summary.topic s) = true)
         sessions.
Proof.
  intros H. apply list_route_success in H as (Ht & analysisDir & folders & ->).
  split; [exact Ht|]. apply Forall_forall. intros s Hs.
  apply (Permutation_in _ (Array_sort_perm _ _ _)) in Hs.
  apply in_summaries in Hs as (f & _ & Hl).
  unfold listed in Hl.
  destruct (parseSessionId f) as [parsed|] eqn:Hp; [|discriminate].
  destruct (fs (join analysisDir f)) as [[?|?]|]; try discriminate.
  injection Hl as <-. cbn. repeat split.
  - exists parsed. split; [exact Hp | reflexivity].
  - destruct (existsSync fs (conclusionsPath analysisDir f)); congruence.
  - destruct (existsSync fs (conclusionsPath analysisDir f)); congruence.
  - rewrite topic_of_derived. eapply derived_topic_truthy. exact Hp.
Qed.

Lemma listed_sessions_are_well_formed_witness :
  3 = List.length Fixture.three_dates_listed /\
  Forall (fun s => Summary.name s = Summary.id s /\
                   Js.truthy (Summary.topic s) = true)
         Fixture.three_dates_listed.
Proof.
  assert (Hl : @list_route Sample.host Fixture.list_request Fixture.three_dates =
               Normal (@json_response 200 (ListPayload Fixture.three_dates_listed 3)))
    by (vm_compute; reflexivity).
  destruct (@listed_sessions_are_well_formed Sample.host _ _ _ _ Hl) as [Ht Hall].
  split; [exact Ht|].
  eapply Forall_impl; [|exact Hall]. cbn beta. intros s (Hn & _ & _ & Htr).
  split; assumption.
Defined.

(** X5.  When the directory listing names no entry twice, no two listed
    sessions share an [id]. *)
Theorem listed_ids_are_distinct {host : Host}
        (ctx : RouteContext) (fs : filesystem) (analysisDir : string)
        (folders : list string) (sessions : list Summary.t) (total : nat) :
  analysisDir_of ctx = Normal analysisDir ->
  readdir fs analysisDir = Normal folders ->
  NoDup folders ->
  list_route ctx fs = Normal (json_response 200 (ListPayload sessions total)) ->
  NoDup (map Summary.id sessions).
Proof.
  intros Hd Hr Hnd Hl.
  pose proof (list_route_sorted_summaries _ _ _ _ _ _ Hd Hr Hl) as ->.
  apply (Permutation_NoDup
           (Permutation_map Summary.id
              (Permutation_sym (Array_sort_perm _ by_date_descending
                                  (summaries fs analysisDir folders))))).
  rewrite summaries_ids. now apply NoDup_filter.
Qed.

Lemma listed_ids_are_distinct_witness :
  NoDup (map Summary.id Fixture.three_dates_listed).
Proof.
  assert (Hl : @list_route Sample.host Fixture.list_request Fixture.three_dates =
               Normal (@json_response 200 (ListPayload Fixture.three_dates_listed 3)))
    by (vm_compute; reflexivity).
  apply (@listed_ids_are_distinct Sample.host Fixture.list_request
           Fixture.three_dates Fixture.analysisDir
           ["ANL-alpha-2026-01-01"; "notes.txt"; "ANL-beta-2026-02-15";
            "ANL-gamma-2025-12-31"] _ 3 eq_refl eq_refl); [|exact Hl].
  repeat constructor; simpl; intuition discriminate.
Defined.

(** X6.  Entries whose name is not a session name play no part: the loop
    over a listing gives what it gives over the listing without them,
    whether or not they can be stat'ed, since the name is tested first. *)
Theorem non_session_entries_are_skipped {host : Host}
        (fs : filesystem) (analysisDir : string) (folders : list string)
        (sessions : list Summary.t) :
  collect_sessions fs analysisDir folders sessions =
  collect_sessions fs analysisDir (filter Routing.session_name folders) sessions.
Proof.
  revert sessions; induction folders as [|f folders IH]; intros sessions;
    [reflexivity|].
  cbn [filter]. unfold Routing.session_name at 1.
  destruct (parseSessionId f) as [parsed|] eqn:Hp.
  - cbn [collect_sessions].
    destruct (getSessionSummary fs analysisDir f) as [summary|m]; cbn [bind];
      [apply IH | reflexivity].
  - cbn [collect_sessions]. unfold getSessionSummary at 1. rewrite Hp.
    cbn [bind]. apply IH.
Qed.

(** ** Summary and detail of one session *)

(** X7.  Every session that the summary operation returns can be fetched
    by its [id]: the detail operation returns a record with the same
    [id], [name], [topic] and [createdAt]; and a detail that is
    [completed] belongs to a summary that is [completed] (the converse
    fails on a conclusions file that does not parse). *)
Theorem listed_session_has_matching_detail {host : Host}
        (fs : filesystem) (analysisDir folderName : string) (s : Summary.t) :
  getSessionSummary fs analysisDir folderName = Normal (Some s) ->
  exists d,
    getSessionDetail fs analysisDir (Summary.id s) = Normal (Some d) /\
    Detail.id d = Summary.id s /\
    Detail.name d = Summary.name s /\
    Detail.topic d = Summary.topic s /\
    Detail.createdAt d = Summary.createdAt s /\
    (Detail.status d = completed -> Summary.status s = completed).
Proof.
  rewrite getSessionSummary_eq.
  destruct (parseSessionId folderName) as [parsed|] eqn:Hp; [|discriminate].
  destruct (fs (join analysisDir folderName)) as [[?|listing]|] eqn:Hf;
    try discriminate.
  intros [= <-]. cbn [Summary.id summary_record].
  rewrite getSessionDetail_eq, Hp. unfold existsSync at 1. rewrite Hf.
  eexists. split; [reflexivity|]. cbn. repeat split.
  unfold conclusionsPath, json_at.
  destruct (readFile fs (join (join analysisDir folderName) "conclusions.json"))
    as [text|m] eqn:Hr; [|discriminate].
  now rewrite (readFile_Normal_exists _ _ _ Hr).
Qed.

Lemma listed_session_has_matching_detail_witness :
  exists d,
    @getSessionDetail Sample.host Fixture.three_dates Fixture.analysisDir
      "ANL-beta-2026-02-15" = Normal (Some d) /\
    Detail.topic d = VString "beta" /\ Detail.createdAt d = "2026-02-15".
Proof.
  destruct (@listed_session_has_matching_detail Sample.host Fixture.three_dates
              Fixture.analysisDir "ANL-beta-2026-02-15"
              (Fixture.bare "ANL-beta-2026-02-15" "beta" "2026-02-15") eq_refl)
    as (d & Hd & _ & _ & Ht & Hc & _).
  exists d. split; [exact Hd|]. split; [exact Ht | exact Hc].
Defined.

(** X8.  [getSessionDetail] settles to [null] exactly when the identifier
    is not a session name or nothing exists at the session path; in every
    other case it settles to a record whose [id] and [name] are the
    identifier and whose [createdAt] is the identifier's date, whatever
    the state of the four artifacts.  It never rejects. *)
Theorem detail_is_null_exactly_for_unknown_sessions {host : Host}
        (fs : filesystem) (analysisDir sessionId : string) :
  (getSessionDetail fs analysisDir sessionId = Normal None <->
   parseSessionId sessionId = None \/
   existsSync fs (join analysisDir sessionId) = false) /\
  (forall parsed,
      parseSessionId sessionId = Some parsed ->
      existsSync fs (join analysisDir sessionId) = true ->
      exists d,
        getSessionDetail fs analysisDir sessionId = Normal (Some d) /\
        Detail.id d = sessionId /\ Detail.name d = sessionId /\
        Detail.createdAt d = date parsed) /\
  (forall message, getSessionDetail fs analysisDir sessionId <> Throw message).
Proof.
  rewrite getSessionDetail_eq.
  destruct (parseSessionId sessionId) as [parsed|].
  - destruct (existsSync fs (join analysisDir sessionId)).
    + repeat split; try discriminate.
      * intros [H|H]; discriminate.
      * intros p [= <-] _. eexists. repeat split.
    + repeat split; try discriminate; auto.
  - repeat split; try discriminate; auto.
Qed.

(** X9.  The two safe readers agree on one file: where the text reader
    gives "absent" the JSON reader does too, and a JSON value other than
    [null] is the parse of the very text the text reader gives. *)
Theorem json_reader_follows_text_reader {host : Host}
        (fs : filesystem) (path : string) :
  (readTextFile fs path = Normal None -> readJsonFile fs path = Normal VNull) /\
  (forall v, readJsonFile fs path = Normal v -> v <> VNull ->
             exists text, readTextFile fs path = Normal (Some text) /\
                          JSON_parse text = Normal v).
Proof.
  rewrite readTextFile_eq, readJsonFile_eq. unfold text_at, json_at.
  destruct (readFile fs path) as [text|m]; split; try discriminate; auto.
  - intros v [= <-] Hv. exists text. split; [reflexivity|].
    destruct (JSON_parse text); [reflexivity | congruence].
  - intros v [= <-] Hv. congruence.
Qed.

(** X10.  The summary of a folder reads two paths only, the folder and
    its conclusions file, and the detail five, the folder and its four
    artifacts: file systems that agree there give the same result. *)
Theorem operations_read_only_their_own_paths {host : Host}
        (fs1 fs2 : filesystem) (analysisDir folderName : string) :
  let sessionPath := join analysisDir folderName in
  fs1 sessionPath = fs2 sessionPath ->
  fs1 (join sessionPath "conclusions.json") = fs2 (join sessionPath "conclusions.json") ->
  getSessionSummary fs1 analysisDir folderName =
    getSessionSummary fs2 analysisDir folderName /\
  (fs1 (join sessionPath "discussion.md") = fs2 (join sessionPath "discussion.md") ->
   fs1 (join sessionPath "explorations.json") = fs2 (join sessionPath "explorations.json") ->
   fs1 (join sessionPath "perspectives.json") = fs2 (join sessionPath "perspectives.json") ->
   getSessionDetail fs1 analysisDir folderName =
     getSessionDetail fs2 analysisDir folderName).
Proof.
  cbv zeta. intros Hs Hc. split.
  - rewrite !getSessionSummary_eq. rewrite Hs.
    unfold summary_record, conclusionsPath, json_at, readFile, existsSync.
    now rewrite Hc.
  - intros Hd He Hp. rewrite !getSessionDetail_eq.
    unfold detail_record, json_at, text_at, readFile, existsSync.
    now rewrite Hs, Hc, Hd, He, Hp.
Qed.

Lemma operations_read_only_their_own_paths_witness :
  @getSessionSummary Sample.host Fixture.three_dates Fixture.analysisDir
    "ANL-alpha-2026-01-01" =
  @getSessionSummary Sample.host Fixture.truncated_conclusions Fixture.analysisDir
    "ANL-alpha-2026-01-01".
Proof.
  apply (@operations_read_only_their_own_paths Sample.host Fixture.three_dates
           Fixture.truncated_conclusions Fixture.analysisDir
           "ANL-alpha-2026-01-01"); reflexivity.
Defined.

(** ** Labels *)

Section LabelFacts.
Import Card Label.

Lemma has_char_replace_all c d s :
  c <> d -> has_char c (Js.replace_all c d s) = false.
Proof.
  intros Hcd. induction s as [|a s IH]; [reflexivity|].
  cbn [Js.replace_all has_char]. rewrite IH, orb_false_r.
  destruct (Ascii.eqb_spec a c) as [->|Hac]; apply Ascii.eqb_neq; congruence.
Qed.

Lemma has_char_space_capitals c s :
  Ascii.eqb " " c = false ->
  has_char c (space_capitals s) = has_char c s.
Proof.
  intros Hc. induction s as [|a s IH]; [reflexivity|].
  cbn [space_capitals]. destruct (is_upper a); cbn [has_char]; rewrite IH;
    [rewrite Hc|]; reflexivity.
Qed.

Lemma toUpperCase_underscore a :
  Ascii.eqb (toUpperCase a) "_" = Ascii.eqb a "_".
Proof. destruct a as [[] [] [] [] [] [] [] []]; reflexivity. Qed.

Lemma has_char_capitalize_first s :
  has_char "_" (capitalize_first s) = has_char "_" s.
Proof.
  destruct s as [|a s]; [reflexivity|]. unfold capitalize_first.
  destruct (Regex.is_line_terminator a); [reflexivity|].
  cbn [has_char]. now rewrite toUpperCase_underscore.
Qed.

Lemma has_char_trim_start c s :
  has_char c s = false -> has_char c (trim_start s) = false.
Proof.
  induction s as [|a s IH]; [reflexivity|]. cbn [trim_start has_char].
  intros H. apply orb_false_iff in H as [Ha Hs].
  destruct (is_space a); [now apply IH|].
  cbn [has_char]. now rewrite Ha, Hs.
Qed.

Lemma has_char_trim_end c s :
  has_char c s = false -> has_char c (trim_end s) = false.
Proof.
  induction s as [|a s IH]; [reflexivity|]. cbn [trim_end has_char].
  intros H. apply orb_false_iff in H as [Ha Hs]. specialize (IH Hs).
  destruct (trim_end s) as [|b kept].
  - destruct (is_space a); [reflexivity|]. cbn [has_char]. now rewrite Ha.
  - cbn [has_char] in *. now rewrite Ha, IH.
Qed.

Lemma first_char_trim_start s :
  is_space_opt (first_char (trim_start s)) = false.
Proof.
  induction s as [|a s IH]; [reflexivity|]. cbn [trim_start].
  destruct (is_space a) eqn:Ha; [exact IH|]. exact Ha.
Qed.

Lemma first_char_trim_end s :
  is_space_opt (first_char s) = false ->
  is_space_opt (first_char (trim_end s)) = false.
Proof.
  destruct s as [|a s]; [reflexivity|]. cbn [trim_end first_char is_space_opt].
  intros Ha. destruct (trim_end s); [rewrite Ha|]; cbn; auto.
Qed.

Lemma last_char_trim_end s :
  is_space_opt (last_char (trim_end s)) = false.
Proof.
  induction s as [|a s IH]; [reflexivity|]. cbn [trim_end].
  destruct (trim_end s) as [|b kept].
  - destruct (is_space a) eqn:Ha; [reflexivity | exact Ha].
  - exact IH.
Qed.

Lemma trim_end_unchanged s :
  is_space_opt (last_char s) = false -> trim_end s = s.
Proof.
  induction s as [|a s IH]; [reflexivity|]. cbn [trim_end].
  destruct s as [|b s].
  - cbn. intros ->. reflexivity.
  - intros H. rewrite (IH H). reflexivity.
Qed.

End LabelFacts.

(** X11.  A label never contains an underscore, and never starts or ends
    with white space, whatever the key. *)
Theorem labels_have_no_underscore_and_no_outer_blank (key : string) :
  Label.has_char "_" (Card.formatLabel key) = false /\
  Label.is_space_opt (Label.first_char (Card.formatLabel key)) = false /\
  Label.is_space_opt (Label.last_char (Card.formatLabel key)) = false.
Proof.
  unfold Card.formatLabel, Card.trim. repeat split.
  - apply has_char_trim_end, has_char_trim_start.
    rewrite has_char_capitalize_first, has_char_space_capitals by reflexivity.
    apply has_char_replace_all. discriminate.
  - apply first_char_trim_end, first_char_trim_start.
  - apply last_char_trim_end.
Qed.

Section LabelShapes.
Import Card Label.

Lemma snake_char_cases a :
  snake_char a = true ->
  (Ascii.eqb a "_" = true \/
   (Ascii.eqb a "_" = false /\ is_upper a = false /\ is_space a = false)).
Proof. destruct a as [[] [] [] [] [] [] [] []]; cbv; intuition discriminate. Qed.

Lemma lower_char_facts a :
  is_lower a = true ->
  Regex.is_line_terminator a = false /\ is_upper a = false /\
  is_space (toUpperCase a) = false /\ is_space a = false /\
  Ascii.eqb a "_" = false.
Proof. destruct a as [[] [] [] [] [] [] [] []]; cbv; intuition discriminate. Qed.

Lemma space_capitals_snake s :
  Routing.all_in snake_char s = true ->
  space_capitals (Js.replace_all "_" " " s) = Js.replace_all "_" " " s.
Proof.
  induction s as [|a s IH]; [reflexivity|]. cbn [Routing.all_in].
  intros H. apply andb_true_iff in H as [Ha Hs].
  cbn [Js.replace_all space_capitals]. rewrite (IH Hs).
  destruct (snake_char_cases a Ha) as [-> | (-> & Hu & _)]; [reflexivity|].
  now rewrite Hu.
Qed.

Lemma last_char_replace_snake s :
  Routing.all_in snake_char s = true ->
  match last_char s with Some a => Ascii.eqb a "_" | None => false end = false ->
  is_space_opt (last_char (Js.replace_all "_" " " s)) = false.
Proof.
  induction s as [|a s IH]; [reflexivity|]. cbn [Routing.all_in].
  intros H Hl. apply andb_true_iff in H as [Ha Hs].
  cbn [Js.replace_all]. destruct s as [|b s].
  - cbn in *. rewrite Hl.
    destruct (snake_char_cases a Ha) as [E | (_ & _ & E)]; [congruence | exact E].
  - apply (IH Hs Hl).
Qed.

Lemma strip_spaces_trim_start s : strip_spaces (trim_start s) = strip_spaces s.
Proof.
  induction s as [|a s IH]; [reflexivity|]. cbn [trim_start strip_spaces].
  destruct (is_space a) eqn:Ha; [exact IH|]. cbn [strip_spaces]. now rewrite Ha.
Qed.

Lemma strip_spaces_trim_end s : strip_spaces (trim_end s) = strip_spaces s.
Proof.
  induction s as [|a s IH]; [reflexivity|]. cbn [trim_end strip_spaces].
  destruct (trim_end s) as [|b kept].
  - cbn [strip_spaces] in IH. destruct (is_space a) eqn:Ha.
    + exact IH.
    + cbn [strip_spaces]. rewrite Ha. now rewrite <- IH.
  - cbn [strip_spaces] in *. destruct (is_space a); now rewrite IH.
Qed.

Lemma alnum_char_facts a :
  alnum_char a = true ->
  is_space a = false /\ Regex.is_line_terminator a = false /\
  Ascii.eqb a "_" = false /\ is_space (toUpperCase a) = false /\
  (is_upper a = true -> toUpperCase a = a).
Proof. destruct a as [[] [] [] [] [] [] [] []]; cbv; intuition discriminate. Qed.

Lemma replace_all_alnum s :
  Routing.all_in alnum_char s = true -> Js.replace_all "_" " " s = s.
Proof.
  induction s as [|a s IH]; [reflexivity|]. cbn [Routing.all_in].
  intros H. apply andb_true_iff in H as [Ha Hs].
  cbn [Js.replace_all]. rewrite (IH Hs).
  destruct (alnum_char_facts a Ha) as (_ & _ & -> & _). reflexivity.
Qed.

Lemma strip_spaces_space_capitals s :
  Routing.all_in alnum_char s = true -> strip_spaces (space_capitals s) = s.
Proof.
  induction s as [|a s IH]; [reflexivity|]. cbn [Routing.all_in].
  intros H. apply andb_true_iff in H as [Ha Hs].
  destruct (alnum_char_facts a Ha) as (Hsp & _).
  cbn [space_capitals]. destruct (is_upper a);
    cbn [strip_spaces]; change (is_space " ") with true; cbn iota;
    rewrite Hsp, (IH Hs); reflexivity.
Qed.

End LabelShapes.

(** X12.  A key in snake case (lower-case letters, digits and underscores,
    a letter first, no underscore last) becomes the same text with its
    first letter in upper case and every underscore turned into a blank,
    nothing added and nothing trimmed. *)
Theorem snake_case_key_is_capitalised_and_spaced (key : string) :
  Label.snake_case key = true ->
  Card.formatLabel key = Card.capitalize_first (Js.replace_all "_" " " key) /\
  String.length (Card.formatLabel key) = String.length key.
Proof.
  intros Hk. assert (Hfmt : Card.formatLabel key
                            = Card.capitalize_first (Js.replace_all "_" " " key)).
  { destruct key as [|c rest]; [discriminate|].
    unfold Label.snake_case in Hk.
    apply andb_true_iff in Hk as [Hk Hlast]. apply andb_true_iff in Hk as [Hc Hrest].
    apply negb_true_iff in Hlast.
    destruct (lower_char_facts c Hc) as (Hlt & Hup & Hsu & Hsp & Hus).
    unfold Card.formatLabel. cbn [Js.replace_all]. rewrite Hus.
    cbn [Card.space_capitals]. rewrite Hup, (space_capitals_snake rest Hrest).
    unfold Card.capitalize_first. rewrite Hlt.
    unfold Card.trim. cbn [Card.trim_start]. rewrite Hsu.
    apply trim_end_unchanged.
    destruct rest as [|b rest]; [cbn; exact Hsu|].
    change (Label.last_char (String (Card.toUpperCase c)
                               (Js.replace_all "_" " " (String b rest))))
      with (Label.last_char (Js.replace_all "_" " " (String b rest))).
    apply last_char_replace_snake; [exact Hrest | exact Hlast]. }
  split; [exact Hfmt|].
  rewrite Hfmt. destruct key as [|c rest]; [reflexivity|].
  cbn [Js.replace_all]. unfold Card.capitalize_first.
  destruct (Regex.is_line_terminator _); cbn [String.length]; f_equal;
    clear; induction rest as [|a rest IH]; cbn; congruence.
Qed.

Lemma snake_case_key_is_capitalised_and_spaced_witness :
  Card.formatLabel "open_questions" = "Open questions" /\
  String.length (Card.formatLabel "total_rounds") = 12.
Proof.
  split.
  - apply (proj1 (snake_case_key_is_capitalised_and_spaced "open_questions" eq_refl)).
  - apply (proj2 (snake_case_key_is_capitalised_and_spaced "total_rounds" eq_refl)).
Defined.

(** X13.  For a key of letters and digits only, the label is the key with
    blanks put in and its first letter in upper case: taking the white
    space out of the label gives the key back, first letter capitalised. *)
Theorem camel_case_label_keeps_the_key (key : string) :
  Routing.all_in Label.alnum_char key = true ->
  Label.strip_spaces (Card.formatLabel key) = Card.capitalize_first key.
Proof.
  intros Hk.
  unfold Card.formatLabel, Card.trim.
  rewrite strip_spaces_trim_end, strip_spaces_trim_start, (replace_all_alnum key Hk).
  destruct key as [|c rest]; [reflexivity|].
  cbn [Routing.all_in] in Hk. apply andb_true_iff in Hk as [Hc Hrest].
  destruct (alnum_char_facts c Hc) as (Hsp & Hlt & _ & Hsu & Hup).
  cbn [Card.space_capitals]. destruct (Card.is_upper c) eqn:Hu.
  - unfold Card.capitalize_first. rewrite Hlt.
    change (Regex.is_line_terminator " ") with false. cbn iota.
    change (Card.toUpperCase " ") with " "%char.
    cbn [Label.strip_spaces]. change (Card.is_space " ") with true. cbn iota.
    rewrite Hsp, (strip_spaces_space_capitals rest Hrest), (Hup eq_refl).
    reflexivity.
  - unfold Card.capitalize_first. rewrite Hlt.
    cbn [Label.strip_spaces]. rewrite Hsu.
    now rewrite (strip_spaces_space_capitals rest Hrest).
Qed.

Lemma camel_case_label_keeps_the_key_witness :
  Label.strip_spaces (Card.formatLabel "hasConclusions") = "HasConclusions".
Proof.
  apply (camel_case_label_keeps_the_key "hasConclusions" eq_refl).
Defined.

(** ** Entries of an object view *)

(** X14.  An object with at least one property is shown as one entry per
    property, in the order of the properties, and each entry carries the
    formatted key as its label, whether the value is an object, an array
    or a primitive; an object without properties shows the
    [Empty object] marker instead. *)
Theorem object_view_labels_follow_the_properties {utils : Utils}
        (kv : string * value) (rest : list (string * value)) (depth : nat) :
  map Label.label_of (Rendered.children_of (Card.ObjectView (kv :: rest) depth))
  = map (fun entry => Some (Card.formatLabel (fst entry))) (kv :: rest) /\
  List.length (Rendered.children_of (Card.ObjectView (kv :: rest) depth))
  = List.length (kv :: rest) /\
  map Label.label_of (Rendered.children_of (Card.ObjectView [] depth)) = [None] /\
  Rendered.children_of (Card.ObjectView [] depth) = [Text "Empty object"].
Proof.
  assert (Hl : forall key v d,
             Label.label_of (Card.CardItem key v d) = Some (Card.formatLabel key)).
  { intros key v d. destruct v; reflexivity. }
  unfold Card.ObjectView, Card.ObjectView_over.
  change (Nat.eqb (List.length (kv :: rest)) 0) with false.
  cbn [Rendered.children_of Nat.eqb List.length].
  split; [|split; [now rewrite length_map | split; reflexivity]].
  rewrite map_map. apply map_ext. intros [key v]. apply Hl.
Qed.

(** ** The search box and the tabs of the analysis page *)

Section PageFacts.
Import Page.

Lemma includes_iff (s sub : string) :
  includes s sub = true <-> exists a b, s = (a ++ sub ++ b)%string.
Proof.
  induction s as [|c s IH]; cbn [includes].
  - destruct (String.prefix sub "") eqn:Hp.
    + split; [intros _ | reflexivity].
      apply prefix_iff in Hp as [b Hb]. now exists ""%string, b.
    + split; [discriminate|]. intros (a & b & Hab).
      destruct a; [|discriminate]. cbn in Hab.
      assert (String.prefix sub "" = true) by (apply prefix_iff; now exists b).
      congruence.
  - destruct (String.prefix sub (String c s)) eqn:Hp.
    + split; [intros _ | reflexivity].
      apply prefix_iff in Hp as [b Hb]. now exists ""%string, b.
    + rewrite IH. split.
      * intros (a & b & ->). now exists (String c a), b.
      * intros (a & b & Hab). destruct a as [|d a].
        -- cbn in Hab.
           assert (String.prefix sub (String c s) = true)
             by (apply prefix_iff; now exists b).
           congruence.
        -- cbn in Hab. injection Hab as _ ->. now exists a, b.
Qed.

Lemma includes_empty (s : string) : includes s "" = true.
Proof. destruct s; reflexivity. Qed.

Lemma includes_trans (s mid sub : string) :
  includes s mid = true -> includes mid sub = true -> includes s sub = true.
Proof.
  rewrite !includes_iff. intros (a & b & ->) (a' & b' & ->).
  exists (a ++ a')%string, (b' ++ b)%string.
  clear. induction a as [|c a IH]; cbn; [|now f_equal].
  induction a' as [|c a' IH]; cbn; [|now f_equal].
  induction sub as [|c sub IH]; cbn; [|now f_equal].
  induction b' as [|c b' IH]; cbn; [reflexivity | now f_equal].
Qed.

Lemma lower_char_idem (c : ascii) : lower_char (lower_char c) = lower_char c.
Proof. destruct c as [[] [] [] [] [] [] [] []]; reflexivity. Qed.

Lemma toLowerCase_idem (s : string) : toLowerCase (toLowerCase s) = toLowerCase s.
Proof.
  induction s as [|c s IH]; [reflexivity|].
  cbn [toLowerCase]. now rewrite lower_char_idem, IH.
Qed.

Lemma truthy_cases (v : value) : {Js.truthy v = true} + {Js.truthy v = false}.
Proof. destruct (Js.truthy v); [left | right]; reflexivity. Qed.

Lemma tab_offered (detail : Detail.t) :
  (In "conclusions" (map tab_id (tabs detail))
   <-> Js.truthy (Detail.conclusions detail) = true) /\
  (In "discussion" (map tab_id (tabs detail))
   <-> Js.truthy (discussion_content detail) = true).
Proof.
  unfold tabs. cbn [filter content].
  destruct (truthy_cases (discussion_content detail)) as [-> | ->];
    destruct (truthy_cases (Detail.conclusions detail)) as [-> | ->];
    destruct (truthy_cases (Detail.explorations detail)) as [-> | ->];
    destruct (truthy_cases (Detail.perspectives detail)) as [-> | ->];
    cbn; intuition (try discriminate; try congruence).
Qed.

End PageFacts.

(** X15.  The search box of the analysis page: an empty query keeps every
    session; the case of the query's (ASCII) letters does not matter; and
    a session is kept exactly when the query, in lower case, occurs in
    the lower-cased topic or in the lower-cased identifier.  The sessions
    kept stay in the order of the list. *)
Theorem search_keeps_sessions_that_contain_the_query
        (sessions : list Page.AnalysisSessionSummary) (query : string) :
  Page.filteredSessions sessions "" = sessions /\
  Page.filteredSessions sessions (Page.toLowerCase query)
  = Page.filteredSessions sessions query /\
  forall session,
    In session (Page.filteredSessions sessions query) <->
    In session sessions /\
    exists before after,
      (Page.toLowerCase (Page.topic session)
       = before ++ Page.toLowerCase query ++ after
       \/ Page.toLowerCase (Page.id session)
          = before ++ Page.toLowerCase query ++ after)%string.
Proof.
  unfold Page.filteredSessions. split; [|split].
  - cbn [Page.toLowerCase]. induction sessions as [|x l IH]; [reflexivity|].
    cbn [filter]. rewrite includes_empty. cbn. now rewrite IH.
  - now rewrite toLowerCase_idem.
  - intros session. rewrite filter_In, orb_true_iff, !includes_iff.
    split; intros [Hin H]; (split; [exact Hin|]).
    + destruct H as [(a & b & H) | (a & b & H)]; exists a, b; auto.
    + destruct H as (a & b & [H | H]); [left | right]; now exists a, b.
Qed.

(** X16.  Typing more into the search box only narrows the result: when
    the first query occurs (in lower case) in the second, searching with
    the second query in the sessions kept by the first gives what the
    second query gives on the whole list. *)
Theorem longer_query_narrows_the_search
        (sessions : list Page.AnalysisSessionSummary) (query longer : string) :
  Page.includes (Page.toLowerCase longer) (Page.toLowerCase query) = true ->
  Page.filteredSessions (Page.filteredSessions sessions query) longer
  = Page.filteredSessions sessions longer /\
  incl (Page.filteredSessions sessions longer)
       (Page.filteredSessions sessions query).
Proof.
  intros Hq. unfold Page.filteredSessions.
  assert (Hkeep : forall session,
             Page.includes (Page.toLowerCase (Page.topic session))
                           (Page.toLowerCase longer)
             || Page.includes (Page.toLowerCase (Page.id session))
                              (Page.toLowerCase longer) = true ->
             Page.includes (Page.toLowerCase (Page.topic session))
                           (Page.toLowerCase query)
             || Page.includes (Page.toLowerCase (Page.id session))
                              (Page.toLowerCase query) = true).
  { intros session H. apply orb_true_iff in H. apply orb_true_iff.
    destruct H as [H | H]; [left | right];
      exact (includes_trans _ _ _ H Hq). }
  split.
  - induction sessions as [|x l IH]; [reflexivity|]. cbn [filter].
    destruct (Page.includes (Page.toLowerCase (Page.topic x)) (Page.toLowerCase query)
              || Page.includes (Page.toLowerCase (Page.id x)) (Page.toLowerCase query))
      eqn:Hx.
    + cbn [filter]. now rewrite IH.
    + rewrite IH.
      destruct (Page.includes (Page.toLowerCase (Page.topic x)) (Page.toLowerCase longer)
                || Page.includes (Page.toLowerCase (Page.id x)) (Page.toLowerCase longer))
        eqn:Hy; [|reflexivity].
      rewrite (Hkeep x Hy) in Hx. discriminate.
  - intros session. rewrite !filter_In. intros [Hin H].
    split; [exact Hin | exact (Hkeep session H)].
Qed.

Lemma longer_query_narrows_the_search_witness :
  let session folder about :=
    {| Page.id := folder; Page.name := folder; Page.topic := about;
       Page.createdAt := "2026-03-01"; Page.status := in_progress;
       Page.hasConclusions := false |} in
  let sessions := [session "ANL-auth-2026-03-01" "Auth flow";
                   session "ANL-cache-2026-03-01" "Cache design";
                   session "ANL-audit-2026-03-01" "Audit log"] in
  Page.filteredSessions (Page.filteredSessions sessions "AU") "auth"
  = [session "ANL-auth-2026-03-01" "Auth flow"].
Proof.
  cbv zeta.
  exact (eq_trans
           (proj1 (longer_query_narrows_the_search
                     [ {| Page.id := "ANL-auth-2026-03-01";
                          Page.name := "ANL-auth-2026-03-01";
                          Page.topic := "Auth flow";
                          Page.createdAt := "2026-03-01";
                          Page.status := in_progress;
                          Page.hasConclusions := false |};
                       {| Page.id := "ANL-cache-2026-03-01";
                          Page.name := "ANL-cache-2026-03-01";
                          Page.topic := "Cache design";
                          Page.createdAt := "2026-03-01";
                          Page.status := in_progress;
                          Page.hasConclusions := false |};
                       {| Page.id := "ANL-audit-2026-03-01";
                          Page.name := "ANL-audit-2026-03-01";
                          Page.topic := "Audit log";
                          Page.createdAt := "2026-03-01";
                          Page.status := in_progress;
                          Page.hasConclusions := false |} ]
                     "AU" "auth" eq_refl))
           eq_refl).
Defined.

(** X17.  The tabs of the detail panel are the artifacts that have
    content, in the order discussion, conclusions, explorations,
    perspectives; the tab opened first is the first of them, so it is
    always one of the tabs offered; only when no artifact has content
    (no tab is offered) does the default fall back to [discussion]. *)
Theorem default_tab_is_first_artifact_with_content (detail : Detail.t) :
  map Page.tab_id (Page.tabs detail)
  = map fst (filter (fun artifact => Js.truthy (snd artifact)) (Page.artifacts detail)) /\
  Page.defaultTab detail
  = match Page.first_present (Page.artifacts detail) with
    | Some artifact => artifact
    | None => "discussion"
    end /\
  (Page.tabs detail = [] /\ Page.first_present (Page.artifacts detail) = None
   \/ In (Page.defaultTab detail) (map Page.tab_id (Page.tabs detail))).
Proof.
  unfold Page.defaultTab, Page.tabs, Page.artifacts.
  cbn [filter Page.content Page.first_present snd].
  destruct (truthy_cases (Page.discussion_content detail)) as [-> | ->];
    destruct (truthy_cases (Detail.conclusions detail)) as [-> | ->];
    destruct (truthy_cases (Detail.explorations detail)) as [-> | ->];
    destruct (truthy_cases (Detail.perspectives detail)) as [-> | ->];
    cbn; (split; [reflexivity | split; [reflexivity | auto 6]]).
Qed.

(** X18.  For a detail record that the detail operation returns, the
    panel offers the conclusions tab exactly when the record's status is
    [completed], and the discussion tab exactly when the discussion file
    could be read and is not empty. *)
Theorem conclusions_tab_exactly_for_completed_sessions {host : Host}
        (fs : filesystem) (analysisDir sessionId : string) (detail : Detail.t) :
  getSessionDetail fs analysisDir sessionId = Normal (Some detail) ->
  (In "conclusions" (map Page.tab_id (Page.tabs detail))
   <-> Detail.status detail = completed) /\
  (In "discussion" (map Page.tab_id (Page.tabs detail))
   <-> exists text, text <> ""%string /\
         readTextFile fs (join (join analysisDir sessionId) "discussion.md")
         = Normal (Some text)).
Proof.
  rewrite getSessionDetail_eq.
  destruct (parseSessionId sessionId) as [parsed|]; [|discriminate].
  destruct (existsSync fs (join analysisDir sessionId)); [|discriminate].
  intros [= <-].
  destruct (tab_offered (detail_record fs analysisDir sessionId parsed))
    as [Hc Hd].
  split.
  - rewrite Hc. cbn [Detail.status Detail.conclusions detail_record].
    destruct (Js.truthy _); split; congruence.
  - rewrite Hd. unfold Page.discussion_content.
    cbn [Detail.discussion detail_record].
    rewrite readTextFile_eq. unfold text_at.
    destruct (readFile fs (join (join analysisDir sessionId) "discussion.md"))
      as [text|m].
    + destruct text as [|c text]; cbn.
      * split; [discriminate|]. intros (text & Hne & [= <-]). now destruct Hne.
      * split; [intros _ | reflexivity].
        exists (String c text). split; [discriminate | reflexivity].
    + cbn. split; [discriminate|]. intros (text & _ & H). discriminate.
Qed.

Lemma conclusions_tab_exactly_for_completed_sessions_witness :
  let fs := Fixture.with_conclusions (Sample.doc "{'topic': 'Cache design'}") in
  let detail :=
    @detail_record Sample.host fs Fixture.analysisDir Fixture.topic_session
      {| slug := "my-cool-topic"; date := "2026-03-01" |} in
  Detail.status detail = completed /\
  In "conclusions" (map Page.tab_id (Page.tabs detail)) /\
  ~ In "discussion" (map Page.tab_id (Page.tabs detail)).
Proof.
  cbv zeta.
  destruct (@conclusions_tab_exactly_for_completed_sessions Sample.host
              (Fixture.with_conclusions (Sample.doc "{'topic': 'Cache design'}"))
              Fixture.analysisDir Fixture.topic_session
              (@detail_record Sample.host
                 (Fixture.with_conclusions (Sample.doc "{'topic': 'Cache design'}"))
                 Fixture.analysisDir Fixture.topic_session
                 {| slug := "my-cool-topic"; date := "2026-03-01" |}))
    as [Hc Hd]; [vm_compute; reflexivity|].
  split; [vm_compute; reflexivity|]. split.
  - apply Hc. vm_compute. reflexivity.
  - intros Hin. apply Hd in Hin as (text & _ & H). vm_compute in H. discriminate.
Defined.

(** ** Internal errors of the detail route *)

(** X19.  The detail route answers 500 only for a failure of the request
    itself, when the identifier cannot be decoded or the project path
    cannot be resolved, and then with the message of that failure; no
    state of the file system makes it answer 500, since every artifact is
    read through the safe readers. *)
Theorem detail_internal_error_never_from_files {host : Host}
        (ctx : RouteContext) (fs : filesystem) (encodedId : string) :
  (forall message,
      detail_route ctx fs encodedId
      = Normal (json_response 500 (ErrorPayload message))
      <-> decodeURIComponent encodedId = Throw message \/
          (exists sessionId, decodeURIComponent encodedId = Normal sessionId) /\
          analysisDir_of ctx = Throw message) /\
  (forall other message,
      detail_route ctx fs encodedId
      = Normal (json_response 500 (ErrorPayload message))
      <-> detail_route ctx other encodedId
          = Normal (json_response 500 (ErrorPayload message))).
Proof.
  assert (H : forall fs' message,
             detail_route ctx fs' encodedId
             = Normal (json_response 500 (ErrorPayload message))
             <-> decodeURIComponent encodedId = Throw message \/
                 (exists sessionId, decodeURIComponent encodedId = Normal sessionId) /\
                 analysisDir_of ctx = Throw message).
  { intros fs' message. unfold detail_route, internal_error.
    destruct (decodeURIComponent encodedId) as [sessionId|m]; cbn [bind try_catch].
    - destruct (analysisDir_of ctx) as [analysisDir|m]; cbn [bind try_catch].
      + rewrite getSessionDetail_eq.
        destruct (parseSessionId sessionId) as [parsed|]; cbn [bind try_catch].
        * destruct (existsSync fs' (join analysisDir sessionId)); cbn [bind try_catch];
            (split; [discriminate | intros [E | [_ E]]; discriminate]).
        * split; [discriminate | intros [E | [_ E]]; discriminate].
      + split.
        * intros [= <-]. right. split; [now exists sessionId | reflexivity].
        * intros [E | [_ E]]; [discriminate | now injection E as <-].
    - split.
      + intros [= <-]. now left.
      + intros [E | [[x E] _]]; [now injection E as <- | discriminate]. }
  split; [apply H|]. intros other message. now rewrite !H.
Qed.

(** ** The root of the card view *)

(** X20.  [JsonCardView] shows [No data available] exactly for data that
    is falsy ([null], [undefined], [false], [0], the empty string); an
    empty array or object is not such data.  An array at the root is
    shown by the array view, expanded, and an object by the object view
    of its properties at depth 0, each as the only child of the
    container. *)
Theorem json_card_view_root {utils : Utils} (data : value) (given : option string) :
  (Js.truthy data = false <->
   Rendered.children_of (Card.JsonCardView data given) = [Text "No data available"]) /\
  (forall items, data = VArray items ->
     Rendered.children_of (Card.JsonCardView data given) = [Card.ArrayView true items]) /\
  (forall props, data = VObject props ->
     Rendered.children_of (Card.JsonCardView data given) = [Card.ObjectView props 0]).
Proof.
  split; [|split].
  - unfold Card.JsonCardView. destruct (Js.truthy data) eqn:Ht; cbn [negb].
    + split; [discriminate|].
      destruct data; cbn [Rendered.children_of];
        unfold Card.ArrayView, Card.ArrayView_over, Card.ObjectView,
               Card.ObjectView_over;
        repeat match goal with
               | |- context [if ?c then _ else _] => destruct c
               end;
        discriminate.
    + split; reflexivity.
  - intros items ->. reflexivity.
  - intros props ->. reflexivity.
Qed.

(** ** The list when every session entry can be stat'ed *)

(** X21.  Over an analysis directory that is enumerated and in which
    every entry with a session name can be stat'ed, the list is a success
    envelope; it holds exactly the entries that have a session name and
    are directories, whatever happens when their conclusions file is read
    or parsed: such a failure neither aborts the list nor removes the
    session, which is listed with the topic made of its slug. *)
Theorem list_keeps_sessions_despite_artifact_failures {host : Host}
        (ctx : RouteContext) (fs : filesystem)
        (analysisDir : string) (folders : list string) :
  analysisDir_of ctx = Normal analysisDir ->
  readdir fs analysisDir = Normal folders ->
  (forall f, In f folders -> parseSessionId f <> None ->
             existsSync fs (join analysisDir f) = true) ->
  exists sessions,
    list_route ctx fs =
      Normal (json_response 200 (ListPayload sessions (List.length sessions))) /\
    (forall f, In f (map Summary.id sessions) <->
               In f folders /\ is_session_folder fs analysisDir f) /\
    (forall s, In s sessions ->
       readJsonFile fs (conclusionsPath analysisDir (Summary.id s)) = Normal VNull ->
       exists parsed, parseSessionId (Summary.id s) = Some parsed /\
                      Summary.topic s = slug_topic parsed).
Proof.
  intros Hd Hr Hstat.
  exists (Array_sort by_date_descending (summaries fs analysisDir folders)).
  split; [|split].
  - rewrite (list_route_enumerated _ _ _ _ Hd Hr).
    now rewrite (collect_sessions_ok _ _ _ _ Hstat).
  - intros f. rewrite in_map_iff. split.
    + intros (s & <- & Hs).
      apply (Permutation_in _ (Array_sort_perm _ _ _)) in Hs.
      apply in_summaries in Hs as (g & Hg & Hl).
      rewrite (listed_id _ _ _ _ Hl). split; [exact Hg|].
      apply listed_iff_session_folder. eauto.
    + intros (Hf & Hs). apply listed_iff_session_folder in Hs as [s Hs].
      exists s. split; [now apply listed_id in Hs|].
      apply (Permutation_in _ (Permutation_sym (Array_sort_perm _ _ _))).
      apply in_summaries. eauto.
  - intros s Hs Hnull.
    apply (Permutation_in _ (Array_sort_perm _ _ _)) in Hs.
    apply in_summaries in Hs as (g & _ & Hl).
    unfold listed in Hl.
    destruct (parseSessionId g) as [parsed|] eqn:Hp; [|discriminate].
    destruct (fs (join analysisDir g)) as [[?|?]|]; try discriminate.
    injection Hl as <-. cbn [Summary.id Summary.topic summary_record] in *.
    exists parsed. split; [exact Hp|].
    rewrite readJsonFile_eq in Hnull. injection Hnull as ->.
    now rewrite topic_of_derived.
Qed.

Lemma list_keeps_sessions_despite_artifact_failures_witness :
  let fs := Fixture.truncated_conclusions in
  @readJsonFile Sample.host fs (Fixture.at_ "ANL-cache-2026-03-01/conclusions.json")
    = Normal VNull /\
  exists sessions,
    @list_route Sample.host Fixture.list_request fs =
      Normal (@json_response 200 (ListPayload sessions (List.length sessions))) /\
    In "ANL-cache-2026-03-01" (map Summary.id sessions) /\
    forall s, In s sessions -> Summary.id s = "ANL-cache-2026-03-01" ->
              Summary.topic s = VString "cache".
Proof.
  cbv zeta. split; [reflexivity|].
  destruct (@list_keeps_sessions_despite_artifact_failures Sample.host
              Fixture.list_request Fixture.truncated_conclusions
              Fixture.analysisDir
              ["ANL-alpha-2026-01-01"; "ANL-cache-2026-03-01"]
              eq_refl eq_refl)
    as (sessions & Hok & Hin & Htopic).
  - intros f [<-|[<-|[]]] _; reflexivity.
  - exists sessions. split; [exact Hok|]. split.
    + apply Hin. split; [right; left; reflexivity|].
      split; [discriminate | reflexivity].
    + intros s Hs Hid. destruct (Htopic s Hs) as (parsed & Hp & ->).
      * rewrite Hid. reflexivity.
      * rewrite Hid in Hp. vm_compute in Hp. now injection Hp as <-.
Defined.
